(** * Context registration against ML Metadata (tfx.orchestration.portable.mlmd.context_lib)
      and the Python execution dispatcher (tfx.orchestration.python_execution_binary)

    The Python functions are embedded as programs over an explicit signature of
    external calls.  A program either returns, raises, or performs one external
    call and continues with the outcome of that call; [try ... except] is a
    combinator on programs.  Running a program against a handler (an
    implementation of the external calls over some state) yields the outcome,
    the final state and the list of calls made, each with its response. *)

From Stdlib Require Import ZArith List Bool Lia.
From stdpp Require Import base option gmap strings list fin_maps.

Local Open Scope string_scope.
Local Open Scope list_scope.

(** ** Messages *)

Module metadata_store_pb2.

(** Modelled from the spec: metadata_store_pb2.PropertyType, the closed set of
    property value kinds of section 9 (the proto file is not part of the
    sources). *)
Inductive PropertyType := UNKNOWN | INT | DOUBLE | STRING | STRUCT | PROTO | BOOLEAN.

(** Modelled from the spec: metadata_store_pb2.Value, a tagged union of typed
    property values.  A double is carried by its bit pattern; the registrar
    never inspects payloads. *)
Inductive Value :=
| int_value (z : Z)
| double_value (bits : Z)
| string_value (s : string)
| bool_value (b : bool).

Module ContextType.
Record t := mk {
  id : Z;                                   (* 0 when unset *)
  name : string;
  properties : gmap string PropertyType
}.
End ContextType.

Module Context.
Record t := mk {
  id : Z;                                   (* 0 when unset *)
  type_id : Z;
  name : string;
  properties : gmap string Value;
  custom_properties : gmap string Value
}.

(** [context.id = context_id] *)
Definition set_id (c : t) (context_id : Z) : t :=
  mk context_id (type_id c) (name c) (properties c) (custom_properties c).

(** [set_metadata_value(result.properties[k], v)] *)
Definition set_property (c : t) (k : string) (v : Value) : t :=
  mk (id c) (type_id c) (name c) (<[k := v]> (properties c)) (custom_properties c).

(** [set_metadata_value(result.custom_properties[k], v)] *)
Definition set_custom_property (c : t) (k : string) (v : Value) : t :=
  mk (id c) (type_id c) (name c) (properties c) (<[k := v]> (custom_properties c)).
End Context.

Module ParentContext.
Record t := mk { parent_id : Z; child_id : Z }.
End ParentContext.

#[global] Instance PropertyType_eq_dec : EqDecision PropertyType.
Proof. solve_decision. Defined.
#[global] Instance Value_eq_dec : EqDecision Value.
Proof. solve_decision. Defined.
#[global] Instance ParentContext_eq_dec : EqDecision ParentContext.t.
Proof. solve_decision. Defined.

End metadata_store_pb2.
Export metadata_store_pb2.

Module pipeline_pb2.

(** A ContextSpec message.  [name] is the string held by
    [context_spec.name.field_value.string_value] (spec section 3: a
    string-valued field); [properties] is the proto map of declared
    properties. *)
Module ContextSpec.
Record t := mk {
  type : ContextType.t;
  name : string;
  properties : gmap string Value
}.
End ContextSpec.

End pipeline_pb2.
Export pipeline_pb2.

(** ** Exceptions and outcomes *)

(** Python exceptions that reach the functions below. *)
Inductive exn :=
| AlreadyExistsError                      (* mlmd.errors.AlreadyExistsError *)
| StoreError (code : string)              (* any other failure of the store *)
| RuntimeError (actual expected : PropertyType) (key : string)
                                          (* the builder's property type mismatch *)
| AssertionError (context_name : string)  (* the re-read after a conflict found nothing *)
| OtherError (what : string).             (* raised by user code or by the runtime *)

Inductive outcome (A : Type) :=
| Ok (a : A)
| Err (e : exn).
Arguments Ok {A} a.
Arguments Err {A} e.

Definition is_Ok {A} (r : outcome A) : bool :=
  match r with Ok _ => true | Err _ => false end.

(** ** Programs over a signature of external calls *)

Section Programs.
Context {Op : Type} {resp : Op -> Type}.

Inductive prog (A : Type) : Type :=
| Ret (a : A)
| Throw (e : exn)
| Vis (op : Op) (k : outcome (resp op) -> prog A).
Arguments Ret {A} a.
Arguments Throw {A} e.
Arguments Vis {A} op k.

Fixpoint bind {A B} (p : prog A) (f : A -> prog B) : prog B :=
  match p with
  | Ret a => f a
  | Throw e => Throw e
  | Vis op k => Vis op (fun r => bind (k r) f)
  end.

(** [try: p  except: handler] -- an exception raised by the handler itself is
    not caught again. *)
Fixpoint try_except {A} (p : prog A) (handler : exn -> prog A) : prog A :=
  match p with
  | Ret a => Ret a
  | Throw e => handler e
  | Vis op k => Vis op (fun r => try_except (k r) handler)
  end.

(** One external call; a failure of the call is raised. *)
Definition call (op : Op) : prog (resp op) :=
  Vis op (fun r => match r with Ok a => Ret a | Err e => Throw e end).

Definition lift {A} (r : outcome A) : prog A :=
  match r with Ok a => Ret a | Err e => Throw e end.

(** [for x in xs: body(x)] *)
Fixpoint for_each {X} (xs : list X) (body : X -> prog unit) : prog unit :=
  match xs with
  | [] => Ret tt
  | x :: rest => bind (body x) (fun _ => for_each rest body)
  end.

(** [for x in xs: acc = body(acc, x)] -- a loop that updates local variables. *)
Fixpoint for_fold {X S} (xs : list X) (acc : S) (body : S -> X -> prog S) : prog S :=
  match xs with
  | [] => Ret acc
  | x :: rest => bind (body acc x) (fun acc' => for_fold rest acc' body)
  end.

(** A call together with the response it got. *)
Record event := Ev { ev_op : Op; ev_res : outcome (resp ev_op) }.

Definition handler (St : Type) : Type := forall op : Op, St -> outcome (resp op) * St.

(** Outcome, final state and events of a program run from state [s]. *)
Fixpoint run {St A} (h : handler St) (p : prog A) (s : St)
  : outcome A * St * list event :=
  match p with
  | Ret a => (Ok a, s, [])
  | Throw e => (Err e, s, [])
  | Vis op k =>
      let '(r, s1) := h op s in
      let '(res, s2, tr) := run h (k r) s1 in
      (res, s2, Ev op r :: tr)
  end.

Definition result_of {St A} (x : outcome A * St * list event) : outcome A := fst (fst x).
Definition state_of {St A} (x : outcome A * St * list event) : St := snd (fst x).
Definition events_of {St A} (x : outcome A * St * list event) : list event := snd x.
Definition calls_of {St A} (x : outcome A * St * list event) : list Op :=
  map ev_op (events_of x).

End Programs.

Arguments prog {Op} resp A.
Arguments event {Op} resp.
Arguments handler {Op} resp St.
Arguments Ret {Op resp A} a.
Arguments Throw {Op resp A} e.
Arguments Vis {Op resp A} op k.

Declare Scope prog_scope.
Delimit Scope prog_scope with prog.
Notation "'let*' x ':=' p 'in' q" := (bind p (fun x => q))
  (at level 10, x name, p at level 100, q at level 200, only parsing) : prog_scope.
Local Open Scope prog_scope.

(** ** The calls context_lib makes on its collaborators *)

Module mlmd.

(** The metadata store's client API, the type registrar of common_utils and
    the telemetry hook, as seen from context_lib.  [put_contexts c] stands for
    [store.put_contexts([c])] and answers the single id of the returned list;
    [put_parent_contexts e] stands for [store.put_parent_contexts([e])]. *)
Inductive op :=
| get_context_by_type_and_name (type_name context_name : string)
| put_contexts (context : Context.t)
| put_parent_contexts (parent_context : ParentContext.t)
| register_type_if_not_exist (metadata_type : ContextType.t)
| noop_telemetry (module method : string).

Definition resp (o : op) : Type :=
  match o with
  | get_context_by_type_and_name _ _ => option Context.t
  | put_contexts _ => Z
  | put_parent_contexts _ => unit
  | register_type_if_not_exist _ => ContextType.t
  | noop_telemetry _ _ => unit
  end.

(** A store handler answers every call but telemetry; telemetry is a no-op
    that touches nothing ([telemetry_utils.noop_telemetry]). *)
Definition with_telemetry {St} (h : handler resp St) : handler resp St :=
  fun o =>
    match o as o' return St -> outcome (resp o') * St with
    | noop_telemetry _ _ => fun s => (Ok tt, s)
    | o' => h o'
    end.

Definition is_put_parent_contexts (o : op) : bool :=
  match o with put_parent_contexts _ => true | _ => false end.

Definition is_telemetry (o : op) : bool :=
  match o with noop_telemetry _ _ => true | _ => false end.

(** Calls that can change the store. *)
Definition is_mutation (o : op) : bool :=
  match o with
  | put_contexts _ | put_parent_contexts _ | register_type_if_not_exist _ => true
  | _ => false
  end.

(** The event of a context insert that the store refused as a duplicate. *)
Definition insert_conflicted (e : event resp) : bool :=
  match ev_op e as o return outcome (resp o) -> bool with
  | put_contexts _ =>
      fun r => match r with Err AlreadyExistsError => true | _ => false end
  | _ => fun _ => false
  end (ev_res e).

(** The calls of a run that reach the store (everything but telemetry). *)
Definition store_calls (calls : list op) : list op :=
  List.filter (fun o => negb (is_telemetry o)) calls.

End mlmd.

Module constants.
(** Modelled from the spec: tfx.dsl.compiler.constants is not part of the
    sources; section 8 registers the pipeline context under type "pipeline",
    and section 4.5 distinguishes the pipeline-run type. *)
Definition PIPELINE_CONTEXT_TYPE_NAME : string := "pipeline".
Definition PIPELINE_RUN_CONTEXT_TYPE_NAME : string := "pipeline_run".
End constants.

Module data_types_utils.
(** Modelled from the spec: data_types_utils.get_metadata_value_type, the
    runtime kind of a property value (section 9: a closed tagged union checked
    by equality against the schema map). *)
Definition get_metadata_value_type (v : Value) : PropertyType :=
  match v with
  | int_value _ => INT
  | double_value _ => DOUBLE
  | string_value _ => STRING
  | bool_value _ => BOOLEAN
  end.
End data_types_utils.

(** ** context_lib.py *)

Module context_lib.
Import mlmd.

Definition CONTEXT_TYPE_EXECUTION_CACHE : string := "execution_cache".

(** The loop of [_generate_context_proto] over
    [context_spec.properties.items()]. *)
Fixpoint fill_properties (context_type : ContextType.t)
    (items : list (string * Value)) (result : Context.t) : outcome Context.t :=
  match items with
  | [] => Ok result
  | (k, v) :: rest =>
      match ContextType.properties context_type !! k with
      | Some declared =>                        (* k in context_type.properties *)
          let actual_property_type := data_types_utils.get_metadata_value_type v in
          if decide (declared = actual_property_type)
          then fill_properties context_type rest (Context.set_property result k v)
          else Err (RuntimeError actual_property_type declared k)
      | None =>
          fill_properties context_type rest (Context.set_custom_property result k v)
      end
  end.

(** The properties are visited in the order of [map_to_list]; a proto map
    promises no order, and nothing below depends on it. *)
Definition _generate_context_proto (context_spec : ContextSpec.t) : prog resp Context.t :=
  let* context_type := call (register_type_if_not_exist (ContextSpec.type context_spec)) in
  let context_name := ContextSpec.name context_spec in
  (* assert isinstance(context_name, str): holds by the type of [name] *)
  let result := Context.mk 0 (ContextType.id context_type) context_name ∅ ∅ in
  lift (fill_properties context_type
          (map_to_list (ContextSpec.properties context_spec)) result).

Definition put_parent_context_if_not_exists (parent_id child_id : Z) : prog resp unit :=
  let parent_context := ParentContext.mk parent_id child_id in
  let* _ := try_except
              (call (put_parent_contexts parent_context))
              (fun e => match e with
                        | AlreadyExistsError => Ret tt      (* Ensure idempotence. *)
                        | _ => Throw e
                        end) in
  call (noop_telemetry "context_lib" "put_parent_context_if_not_exists").

(** Truth value of an [Optional[List[...]]] argument: [None] and the empty
    list are both false. *)
Definition truthy {X} (l : option (list X)) : bool :=
  match l with
  | Some (_ :: _) => true
  | _ => false
  end.

(** The block [if parent_contexts: for parent_context in parent_contexts: ...]
    that ends [_register_context_if_not_exist]. *)
Definition link_parents (parent_contexts : option (list Context.t))
    (context : Context.t) : prog resp unit :=
  if truthy parent_contexts
  then for_each (default [] parent_contexts)
         (fun parent_context =>
            put_parent_context_if_not_exists
              (Context.id parent_context) (Context.id context))
  else Ret tt.

Definition _register_context_if_not_exist (context_spec : ContextSpec.t)
    (parent_contexts : option (list Context.t)) : prog resp Context.t :=
  let context_type_name := ContextType.name (ContextSpec.type context_spec) in
  let context_name := ContextSpec.name context_spec in
  let* context := call (get_context_by_type_and_name context_type_name context_name) in
  match context with
  | Some context => Ret context
  | None =>
      (* If Context is not found, try to register it. *)
      let* context := _generate_context_proto context_spec in
      let* context :=
        try_except
          (let* context_id := call (put_contexts context) in
           Ret (Context.set_id context context_id))
          (fun e =>
             match e with
             | AlreadyExistsError =>
                 (* This might happen in cases we have parallel executions of nodes. *)
                 let* context :=
                   call (get_context_by_type_and_name context_type_name context_name) in
                 match context with
                 | Some context => Ret context
                 | None => Throw (AssertionError context_name)
                 end
             | _ => Throw e
             end) in
      let* _ := link_parents parent_contexts context in
      Ret context
  end.

Definition register_context_if_not_exists (context_type_name context_name : string)
    (parent_contexts : option (list Context.t)) : prog resp Context.t :=
  let context_spec :=
    ContextSpec.mk (ContextType.mk 0 context_type_name ∅) context_name ∅ in
  let* register_res := _register_context_if_not_exist context_spec parent_contexts in
  let* _ := call (noop_telemetry "context_lib" "register_context_if_not_exists") in
  Ret register_res.

Definition type_name_is (context_spec : ContextSpec.t) (n : string) : bool :=
  bool_decide (ContextType.name (ContextSpec.type context_spec) = n).

(** First loop of [prepare_contexts]; the loop variables are
    [(pipeline_contexts, result)]. *)
Definition pipeline_loop (contexts : list ContextSpec.t)
  : prog resp (list Context.t * list Context.t) :=
  for_fold contexts ([], [])
    (fun '(pipeline_contexts, result) context_spec =>
       if type_name_is context_spec constants.PIPELINE_CONTEXT_TYPE_NAME
       then
         let* pipeline_context := _register_context_if_not_exist context_spec None in
         Ret (pipeline_contexts ++ [pipeline_context], result ++ [pipeline_context])
       else Ret (pipeline_contexts, result)).

(** Second loop of [prepare_contexts]; the loop variable is [result]. *)
Definition other_loop (contexts : list ContextSpec.t)
    (pipeline_contexts result : list Context.t) : prog resp (list Context.t) :=
  for_fold contexts result
    (fun result context_spec =>
       if type_name_is context_spec constants.PIPELINE_CONTEXT_TYPE_NAME
       then Ret result                                             (* continue *)
       else
         let parent_contexts :=
           if type_name_is context_spec constants.PIPELINE_RUN_CONTEXT_TYPE_NAME
           then pipeline_contexts
           else [] in
         let* context :=
           _register_context_if_not_exist context_spec (Some parent_contexts) in
         Ret (result ++ [context])).

(** [node_contexts.contexts] is passed as the list of its specs. *)
Definition prepare_contexts (node_contexts : list ContextSpec.t)
  : prog resp (list Context.t) :=
  let* loop_vars := pipeline_loop node_contexts in
  let '(pipeline_contexts, result) := loop_vars in
  let* result := other_loop node_contexts pipeline_contexts result in
  let* _ := call (noop_telemetry "context_lib" "prepare_contexts") in
  Ret result.

End context_lib.

(** ** Stores to run the programs against *)

Module MemStore.
Import mlmd.

(** Modelled from the spec: the metadata store of section 6 as an in-memory
    fake (section 9), and the type registrar of section 4.1.  The store
    itself is the ml_metadata library and the registrar lives in
    common_utils; neither is part of the sources.  Ids are assigned in
    insertion order, starting at 1. *)
Record t := mk {
  types : list ContextType.t;
  contexts : list Context.t;
  parent_contexts : list ParentContext.t
}.

Definition empty : t := mk [] [] [].

Definition type_by_name (s : t) (n : string) : option ContextType.t :=
  List.find (fun ty => bool_decide (ContextType.name ty = n)) (types s).

Definition same_key (type_id : Z) (name : string) (c : Context.t) : bool :=
  bool_decide (Context.type_id c = type_id) && bool_decide (Context.name c = name).

(** Modelled from the spec: [get_entity_by_type_and_name(type_name, name) ->
    Entity | absent]. *)
Definition lookup (s : t) (type_name context_name : string) : option Context.t :=
  match type_by_name s type_name with
  | None => None
  | Some ty => List.find (same_key (ContextType.id ty) context_name) (contexts s)
  end.

(** Modelled from the spec: [insert_entity(Entity) -> id], fails with
    AlreadyExists on a (type_id, name) collision. *)
Definition insert_context (s : t) (c : Context.t) : outcome Z * t :=
  if existsb (same_key (Context.type_id c) (Context.name c)) (contexts s)
  then (Err AlreadyExistsError, s)
  else
    let id := Z.of_nat (S (length (contexts s))) in
    (Ok id, mk (types s) (contexts s ++ [Context.set_id c id]) (parent_contexts s)).

(** Modelled from the spec: [insert_edge(ParentEdge) -> void], fails with
    AlreadyExists on a duplicate edge. *)
Definition insert_edge (s : t) (e : ParentContext.t) : outcome unit * t :=
  if bool_decide (e ∈ parent_contexts s)
  then (Err AlreadyExistsError, s)
  else (Ok tt, mk (types s) (contexts s) (parent_contexts s ++ [e])).

(** Modelled from the spec: [ensure_type(descriptor)] of section 4.1: looks the
    type up by name and inserts it if absent; answers the registered type. *)
Definition ensure_type (s : t) (ty : ContextType.t) : outcome ContextType.t * t :=
  match type_by_name s (ContextType.name ty) with
  | Some registered => (Ok registered, s)
  | None =>
      let registered :=
        ContextType.mk (Z.of_nat (S (length (types s))))
          (ContextType.name ty) (ContextType.properties ty) in
      (Ok registered, mk (types s ++ [registered]) (contexts s) (parent_contexts s))
  end.

Definition handle : handler resp t :=
  fun o =>
    match o as o' return t -> outcome (resp o') * t with
    | get_context_by_type_and_name type_name context_name =>
        fun s => (Ok (lookup s type_name context_name), s)
    | put_contexts c => fun s => insert_context s c
    | put_parent_contexts e => fun s => insert_edge s e
    | register_type_if_not_exist ty => fun s => ensure_type s ty
    | noop_telemetry _ _ => fun s => (Ok tt, s)
    end.

End MemStore.

Module RacyStore.
Import mlmd.

(** The in-memory store shared with other writers.  The schedule lists, for
    each of our calls in turn, the calls other writers get through right
    after it. *)
Definition t : Type := MemStore.t * list (list op).

Definition interfere (s : MemStore.t) (others : list op) : MemStore.t :=
  fold_left (fun s o => snd (MemStore.handle o s)) others s.

Definition handle : handler resp t :=
  fun o '(s, schedule) =>
    let '(r, s1) := MemStore.handle o s in
    match schedule with
    | [] => (r, (s1, []))
    | others :: schedule' => (r, (interfere s1 others, schedule'))
    end.

End RacyStore.

Module BrokenStore.
Import mlmd.

(** A store that reports every insert as a duplicate and yet finds nothing
    (the broken store of section 7). *)
Definition handle : handler resp unit :=
  fun o =>
    match o as o' return unit -> outcome (resp o') * unit with
    | get_context_by_type_and_name _ _ => fun s => (Ok None, s)
    | put_contexts _ => fun s => (Err AlreadyExistsError, s)
    | put_parent_contexts _ => fun s => (Err AlreadyExistsError, s)
    | register_type_if_not_exist ty => fun s => (Ok ty, s)
    | noop_telemetry _ _ => fun s => (Ok tt, s)
    end.

End BrokenStore.

Module UnavailableStore.
Import mlmd.

(** A store that cannot be reached: every call fails with the same error. *)
Definition handle : handler resp unit :=
  fun o s => (Err (StoreError "UNAVAILABLE"), s).

End UnavailableStore.

Import mlmd context_lib.

(** A run against a store, with telemetry handled as the no-op it is. *)
Abbreviation exec h := (run (with_telemetry h)).

(** What the registrar answers once it holds [context]: the parents are linked
    first, and a failure of the linking is raised instead. *)
Definition after_linking {St} (h : handler resp St)
    (parent_contexts : option (list Context.t)) (context : Context.t)
    (before : list (event resp)) (s : St) : outcome Context.t * St * list (event resp) :=
  let '(linked, s', tr) := exec h (link_parents parent_contexts context) s in
  (match linked with Ok _ => Ok context | Err e => Err e end, s', before ++ tr).

(** ** python_execution_lib.py *)

Module python_execution_lib.

(** executable_spec_pb2: the two kinds of executable spec, with the class path
    each carries ([class_path], resp. [python_executor_spec.class_path]). *)
Inductive ExecutableSpec :=
| PythonClassExecutableSpec (class_path : string)
| BeamExecutableSpec (python_executor_spec_class_path : string).

(** data_types.ExecutionInfo, reduced to the field the dispatcher reads and an
    opaque rest. *)
Record ExecutionInfo := {
  execution_output_uri : string;
  invocation : string
}.

(** A DriverOutput or ExecutorOutput message, carried by its serialization. *)
Record Message := { SerializeToString : string }.

(** The calls the dispatcher makes on its collaborators.  [run_driver spec
    config info] stands for
    [PythonDriverOperator(spec, metadata.Metadata(config)).run_driver(info)];
    [fileio_write uri data] for opening [uri] in mode 'wb' and writing [data]. *)
Inductive op :=
| import_class_by_path (class_path : string)
| deserialize_mlmd_connection_config (b64 : string)
| run_driver (executable_spec : ExecutableSpec) (mlmd_connection_config : string)
    (execution_info : ExecutionInfo)
| run_executor (executable_spec : ExecutableSpec) (execution_info : ExecutionInfo)
| fileio_write (uri : string) (data : string).

Definition resp (o : op) : Type :=
  match o with
  | import_class_by_path _ => unit
  | deserialize_mlmd_connection_config _ => string
  | run_driver _ _ _ => Message
  | run_executor _ _ => option Message
  | fileio_write _ _ => unit
  end.

(** Truth value of a string flag: unset and empty are both false. *)
Definition flag_set (value : option string) : bool :=
  match value with
  | Some b64 => negb (bool_decide (b64 = ""))
  | None => false
  end.

Definition _import_class_path (executable_spec : ExecutableSpec) : prog resp unit :=
  match executable_spec with
  | BeamExecutableSpec class_path => call (import_class_by_path class_path)
  | PythonClassExecutableSpec class_path => call (import_class_by_path class_path)
  end.

Definition _run_driver (executable_spec : ExecutableSpec) (mlmd_connection_config : string)
    (execution_info : ExecutionInfo) : prog resp Message :=
  call (run_driver executable_spec mlmd_connection_config execution_info).

(** [MLMD_CONNECTION_CONFIG_FLAG.value] is passed as an argument. *)
Definition _run_python_custom_component (MLMD_CONNECTION_CONFIG_FLAG_value : option string)
    (executable_spec : ExecutableSpec) (execution_info : ExecutionInfo) : prog resp unit :=
  let* _ := _import_class_path executable_spec in
  let* run_result :=
    if flag_set MLMD_CONNECTION_CONFIG_FLAG_value
    then
      let* mlmd_connection_config :=
        call (deserialize_mlmd_connection_config
                (default "" MLMD_CONNECTION_CONFIG_FLAG_value)) in
      let* driver_output :=
        _run_driver executable_spec mlmd_connection_config execution_info in
      Ret (Some driver_output)
    else call (run_executor executable_spec execution_info) in
  match run_result with
  | Some message =>                                       (* if run_result: *)
      call (fileio_write (execution_output_uri execution_info)
              (SerializeToString message))
  | None => Ret tt
  end.

Definition run (MLMD_CONNECTION_CONFIG_FLAG_value : option string)
    (executable_spec : ExecutableSpec) (execution_info : ExecutionInfo) : prog resp unit :=
  _run_python_custom_component MLMD_CONNECTION_CONFIG_FLAG_value executable_spec
    execution_info.

(** Observations on the events of a run. *)
Definition class_path_of (executable_spec : ExecutableSpec) : string :=
  match executable_spec with
  | PythonClassExecutableSpec class_path => class_path
  | BeamExecutableSpec class_path => class_path
  end.

Definition is_run_driver (o : op) : bool :=
  match o with run_driver _ _ _ => true | _ => false end.

Definition is_run_executor (o : op) : bool :=
  match o with run_executor _ _ => true | _ => false end.

(** The files written, with their contents. *)
Fixpoint writes_of (calls : list op) : list (string * string) :=
  match calls with
  | [] => []
  | fileio_write uri data :: rest => (uri, data) :: writes_of rest
  | _ :: rest => writes_of rest
  end.

(** The result a driver or executor call produced, if it produced one. *)
Definition produced_by (e : event resp) : option Message :=
  match ev_op e as o return outcome (resp o) -> option Message with
  | run_driver _ _ _ => fun r => match r with Ok message => Some message | Err _ => None end
  | run_executor _ _ => fun r => match r with Ok result => result | Err _ => None end
  | _ => fun _ => None
  end (ev_res e).

Fixpoint produced (events : list (event resp)) : option Message :=
  match events with
  | [] => None
  | e :: rest =>
      match produced_by e with
      | Some message => Some message
      | None => produced rest
      end
  end.

(** A runtime with fixed answers: imports and writes succeed, the connection
    config decodes to itself, the driver answers a fixed message and the
    executor answers [executor_result]. *)
Definition scripted (executor_result : option Message) : handler resp unit :=
  fun o =>
    match o as o' return unit -> outcome (resp o') * unit with
    | import_class_by_path _ => fun s => (Ok tt, s)
    | deserialize_mlmd_connection_config b64 => fun s => (Ok b64, s)
    | run_driver _ _ _ => fun s => (Ok {| SerializeToString := "driver-output" |}, s)
    | run_executor _ _ => fun s => (Ok executor_result, s)
    | fileio_write _ _ => fun s => (Ok tt, s)
    end.

End python_execution_lib.

(** ** The batch orchestrator as section 4.5 words it *)

Module batch.

Definition is_pipeline (context_spec : ContextSpec.t) : bool :=
  type_name_is context_spec constants.PIPELINE_CONTEXT_TYPE_NAME.

Definition is_pipeline_run (context_spec : ContextSpec.t) : bool :=
  type_name_is context_spec constants.PIPELINE_RUN_CONTEXT_TYPE_NAME.

(** Register the specs one after the other, each with the parents chosen for it,
    and collect the results in that order. *)
Fixpoint register_each (specs : list ContextSpec.t)
    (parents_for : ContextSpec.t -> option (list Context.t)) : prog resp (list Context.t) :=
  match specs with
  | [] => Ret []
  | context_spec :: rest =>
      let* context :=
        _register_context_if_not_exist context_spec (parents_for context_spec) in
      let* contexts := register_each rest parents_for in
      Ret (context :: contexts)
  end.

(** Pass 2: a pipeline-run spec gets all pipeline contexts as parents, any other
    remaining spec gets none. *)
Definition pass2_parents (pipeline_contexts : list Context.t)
    (context_spec : ContextSpec.t) : option (list Context.t) :=
  Some (if is_pipeline_run context_spec then pipeline_contexts else []).

(** Pass 1 over the pipeline specs, without parents; pass 2 over the remaining
    specs in their original order; pass 1's results first in the output. *)
Definition register_batch (specs : list ContextSpec.t) : prog resp (list Context.t) :=
  let* pipeline_contexts :=
    register_each (List.filter is_pipeline specs) (fun _ => None) in
  let* others :=
    register_each (List.filter (fun context_spec => negb (is_pipeline context_spec)) specs)
      (pass2_parents pipeline_contexts) in
  Ret (pipeline_contexts ++ others).

End batch.

(** Specs and stores used in the examples. *)
Module examples.

Definition spec (type_name name : string) : ContextSpec.t :=
  ContextSpec.mk (ContextType.mk 0 type_name ∅) name ∅.

Definition p1 := spec "pipeline" "p1".
Definition p2 := spec "pipeline" "p2".
Definition r1 := spec "pipeline_run" "r1".
Definition o1 := spec "other" "o1".

(** A store that already holds the pipeline context p1. *)
Definition pipeline_context : Context.t := Context.mk 1 1 "p1" ∅ ∅.

Definition store_with_pipeline : MemStore.t :=
  MemStore.mk [ContextType.mk 1 "pipeline" ∅] [pipeline_context] [].

(** A lost race: right after our first lookup of r1, another writer registers
    the pipeline-run type and inserts r1. *)
Definition built_r1 : Context.t := Context.mk 0 2 "r1" ∅ ∅.
Definition winner_r1 : Context.t := Context.mk 2 2 "r1" ∅ ∅.
Definition run_type : ContextType.t := ContextType.mk 2 "pipeline_run" ∅.

Definition race : RacyStore.t :=
  (store_with_pipeline,
   [[register_type_if_not_exist (ContextSpec.type r1); put_contexts built_r1]]).

Definition race_after (calls : list op) : RacyStore.t :=
  fold_left (fun s o => snd (RacyStore.handle o s)) calls race.

Definition lookup_r1 : op := get_context_by_type_and_name "pipeline_run" "r1".

Definition race1 : RacyStore.t := race_after [lookup_r1].
Definition race2 : RacyStore.t :=
  race_after [lookup_r1; register_type_if_not_exist (ContextSpec.type r1)].
Definition race3 : RacyStore.t :=
  race_after [lookup_r1; register_type_if_not_exist (ContextSpec.type r1);
              put_contexts built_r1].

(** A spec with a declared schema: "owner" is a STRING property of the type,
    "note" is not declared. *)
Definition owned_type : ContextType.t :=
  ContextType.mk 0 "pipeline" {[ "owner" := STRING ]}.

Definition owned_spec : ContextSpec.t :=
  ContextSpec.mk owned_type "p1"
    (<[ "owner" := string_value "ml" ]> {[ "note" := int_value 7 ]}).

Definition owned_registered : ContextType.t :=
  ContextType.mk 1 "pipeline" {[ "owner" := STRING ]}.

Definition store_with_owned_type : MemStore.t := MemStore.mk [owned_registered] [] [].

(** The same spec with an integer where the schema declares a string. *)
Definition mistyped_spec : ContextSpec.t :=
  ContextSpec.mk owned_type "p1" {[ "owner" := int_value 3 ]}.

(** Names of the contexts a run returned. *)
Definition names_of {St} (x : outcome (list Context.t) * St * list (event resp))
  : outcome (list string) :=
  match result_of x with
  | Ok contexts => Ok (map Context.name contexts)
  | Err e => Err e
  end.

End examples.

(** The reading of the registrar under which a lost insert race links no
    parent: whenever a run saw its insert refused as a duplicate, it made no
    edge insert. *)
Definition conflict_leaves_parents_unlinked {St} (h : handler resp St) (s : St)
    (context_spec : ContextSpec.t) (parent_contexts : list Context.t) : Prop :=
  let tr :=
    events_of (exec h (_register_context_if_not_exist context_spec (Some parent_contexts)) s) in
  existsb insert_conflicted tr = true ->
  existsb is_put_parent_contexts (map ev_op tr) = false.

(** ** Observations on runs *)

Module observe.

(** The error a call answered, if it failed. *)
Definition failure_of {Op} {resp : Op -> Type} (e : event resp) : option exn :=
  match ev_res e with
  | Err x => Some x
  | Ok _ => None
  end.

(** The error answered by the last call of a run, if that call failed. *)
Fixpoint last_failure {Op} {resp : Op -> Type} (tr : list (event resp)) : option exn :=
  match tr with
  | [] => None
  | [e] => failure_of e
  | _ :: rest => last_failure rest
  end.

(** The call was answered without error. *)
Definition succeeded {Op} {resp : Op -> Type} (e : event resp) : bool :=
  match ev_res e with
  | Ok _ => true
  | Err _ => false
  end.

Definition is_lookup (o : mlmd.op) : bool :=
  match o with mlmd.get_context_by_type_and_name _ _ => true | _ => false end.

Definition is_put_contexts (o : mlmd.op) : bool :=
  match o with mlmd.put_contexts _ => true | _ => false end.

Definition is_register_type (o : mlmd.op) : bool :=
  match o with mlmd.register_type_if_not_exist _ => true | _ => false end.

(** How many calls of a kind a run made. *)
Definition count (kind : mlmd.op -> bool) (calls : list mlmd.op) : nat :=
  length (List.filter kind calls).

(** The id the store assigned, when a context insert of the run succeeded. *)
Fixpoint inserted_id (tr : list (event mlmd.resp)) : option Z :=
  match tr with
  | [] => None
  | e :: rest =>
      match ev_op e as o return outcome (mlmd.resp o) -> option Z with
      | mlmd.put_contexts _ =>
          fun r => match r with Ok context_id => Some context_id | Err _ => inserted_id rest end
      | _ => fun _ => inserted_id rest
      end (ev_res e)
  end.

(** The two failures the registrar catches: AlreadyExists answered to the
    context insert or to an edge insert. *)
Definition masked (e : event mlmd.resp) : bool :=
  match failure_of e with
  | Some AlreadyExistsError => is_put_contexts (ev_op e) || mlmd.is_put_parent_contexts (ev_op e)
  | _ => false
  end.

(** The type the type registrar answered, when the run registered its type. *)
Fixpoint registered_type (tr : list (event mlmd.resp)) : option ContextType.t :=
  match tr with
  | [] => None
  | e :: rest =>
      match ev_op e as o return outcome (mlmd.resp o) -> option ContextType.t with
      | mlmd.register_type_if_not_exist _ =>
          fun r => match r with Ok registered => Some registered | Err _ => registered_type rest end
      | _ => fun _ => registered_type rest
      end (ev_res e)
  end.

(** The spec declares, under a key of the registered type, a value of another
    kind than the type declares for that key; [e] is the error the builder
    raises for it. *)
Definition mismatch (registered : ContextType.t) (context_spec : ContextSpec.t)
    (e : exn) : Prop :=
  exists key value declared,
    ContextSpec.properties context_spec !! key = Some value
    /\ ContextType.properties registered !! key = Some declared
    /\ declared <> data_types_utils.get_metadata_value_type value
    /\ e = RuntimeError (data_types_utils.get_metadata_value_type value) declared key.

(** Every failure of a run is accounted for: a call before the last one either
    succeeded or had its failure masked, and a failure of the last call is
    what the run raised. *)
Definition accounted (raised : option exn) (tr : list (event mlmd.resp)) : Prop :=
  forallb (fun e => succeeded e || masked e) (removelast tr) = true
  /\ forall x, last_failure tr = Some x -> raised = Some x.

End observe.

(** The in-memory store only ever grows: [s'] holds everything [s] holds, in
    the same order, and possibly more after it. *)
Definition extends (s s' : MemStore.t) : Prop :=
  (exists types, MemStore.types s' = MemStore.types s ++ types)
  /\ (exists contexts, MemStore.contexts s' = MemStore.contexts s ++ contexts)
  /\ (exists edges, MemStore.parent_contexts s' = MemStore.parent_contexts s ++ edges).

(** The specs of a batch in the order the orchestrator registers them:
    pipeline specs first, then the others, each group in original order. *)
Definition registration_order (specs : list ContextSpec.t) : list ContextSpec.t :=
  List.filter batch.is_pipeline specs
  ++ List.filter (fun context_spec => negb (batch.is_pipeline context_spec)) specs.

(** The context that a lookup of the spec's (type name, context name) finds. *)
Definition held (s : MemStore.t) (context_spec : ContextSpec.t) (context : Context.t) : Prop :=
  MemStore.lookup s (ContextType.name (ContextSpec.type context_spec))
    (ContextSpec.name context_spec) = Some context.

(** ** entrypoint.py *)

Module entrypoint.

(** The values of the three flags the entry point defines, [None] when a flag
    is not given on the command line. *)
Record Flags := {
  tfx_execution_info_b64 : option string;
  tfx_python_class_executable_spec_b64 : option string;
  tfx_beam_executable_spec_b64 : option string
}.

(** The calls [main] makes: the two flag markers of absl, the two
    deserializers of python_execution_binary_utils, and, through
    [python_execution_lib.run], the calls of the dispatcher. *)
Inductive op :=
| mark_flag_as_required (flag_name : string)
| mark_flags_as_mutual_exclusive (flag_names : list string) (required : bool)
| deserialize_executable_spec (b64 : option string) (with_beam : bool)
| deserialize_execution_info (b64 : option string)
| lib (o : python_execution_lib.op).

Definition resp (o : op) : Type :=
  match o with
  | mark_flag_as_required _ => unit
  | mark_flags_as_mutual_exclusive _ _ => unit
  | deserialize_executable_spec _ _ => python_execution_lib.ExecutableSpec
  | deserialize_execution_info _ => python_execution_lib.ExecutionInfo
  | lib o => python_execution_lib.resp o
  end.

(** A program of the dispatcher, run from the entry point. *)
Fixpoint dispatch {A} (p : prog python_execution_lib.resp A) : prog resp A :=
  match p with
  | Ret a => Ret a
  | Throw e => Throw e
  | Vis o k => Vis (lib o) (fun r => dispatch (k r))
  end.

(** [MLMD_CONNECTION_CONFIG_FLAG.value], which [python_execution_lib] reads, is
    passed along with the entry point's own flags. *)
Definition main (FLAGS : Flags) (MLMD_CONNECTION_CONFIG_FLAG_value : option string)
  : prog resp unit :=
  let* _ := call (mark_flag_as_required "tfx_execution_info_b64") in
  let* _ := call (mark_flags_as_mutual_exclusive
                    ["tfx_python_class_executable_spec_b64";
                     "tfx_beam_executable_spec_b64"] true) in
  let* executable_spec :=
    match tfx_beam_executable_spec_b64 FLAGS
          return prog resp python_execution_lib.ExecutableSpec with
    | Some _ =>                  (* BEAM_EXECUTABLE_SPEC_FLAG.value is not None *)
        call (deserialize_executable_spec (tfx_beam_executable_spec_b64 FLAGS) true)
    | None =>
        call (deserialize_executable_spec
                (tfx_python_class_executable_spec_b64 FLAGS) false)
    end in
  let* execution_info :=
    call (deserialize_execution_info (tfx_execution_info_b64 FLAGS)) in
  dispatch (python_execution_lib.run MLMD_CONNECTION_CONFIG_FLAG_value
              executable_spec execution_info).

(** The dispatcher's part of a runtime of the entry point. *)
Definition lib_handler {St} (h : handler resp St) : handler python_execution_lib.resp St :=
  fun o => h (lib o).

(** An event of the dispatcher, as an event of the entry point. *)
Definition lib_event (e : event python_execution_lib.resp) : event resp :=
  Ev (lib (ev_op e)) (ev_res e).

Definition is_lib (o : op) : bool :=
  match o with lib _ => true | _ => false end.

Definition is_deserialize_executable_spec (o : op) : bool :=
  match o with deserialize_executable_spec _ _ => true | _ => false end.

(** A runtime with fixed answers: the flag markers pass, the spec decodes to a
    beam or class spec of the given class path, the invocation to the given
    output location, and the dispatcher's calls answer as [scripted]. *)
Definition scripted (executor_result : option python_execution_lib.Message)
  : handler resp unit :=
  fun o =>
    match o as o' return unit -> outcome (resp o') * unit with
    | mark_flag_as_required _ => fun s => (Ok tt, s)
    | mark_flags_as_mutual_exclusive _ _ => fun s => (Ok tt, s)
    | deserialize_executable_spec b64 with_beam =>
        fun s =>
          (Ok (if with_beam
               then python_execution_lib.BeamExecutableSpec (default "" b64)
               else python_execution_lib.PythonClassExecutableSpec (default "" b64)), s)
    | deserialize_execution_info b64 =>
        fun s =>
          (Ok {| python_execution_lib.execution_output_uri := default "" b64;
                 python_execution_lib.invocation := "" |}, s)
    | lib o => python_execution_lib.scripted executor_result o
    end.

End entrypoint.

(** How a dispatch ends once the driver or executor has answered: a result is
    serialized and written to the invocation's output location, and the answer
    of that write is the answer of the dispatch; no result, no write. *)
Definition written {St} (h : handler python_execution_lib.resp St)
    (execution_info : python_execution_lib.ExecutionInfo)
    (run_result : option python_execution_lib.Message)
    (before : list (event python_execution_lib.resp)) (s : St)
  : outcome unit * St * list (event python_execution_lib.resp) :=
  match run_result with
  | Some message =>
      let write :=
        python_execution_lib.fileio_write
          (python_execution_lib.execution_output_uri execution_info)
          (python_execution_lib.SerializeToString message) in
      let '(r, s') := h write s in
      (r, s', before ++ [Ev write r])
  | None => (Ok tt, s, before)
  end.

(** The error a run raised, if it raised. *)
Definition error_of {A} (r : outcome A) : option exn :=
  match r with
  | Ok _ => None
  | Err e => Some e
  end.

(** * Proofs *)

(** ** Running composed programs *)

Section RunLemmas.
Context {Op : Type} {resp : Op -> Type} {St : Type} (h : handler resp St).

Lemma run_bind {A B} (p : prog resp A) (f : A -> prog resp B) (s : St) :
  run h (bind p f) s =
    let '(r, s1, tr) := run h p s in
    match r with
    | Ok a => let '(r2, s2, tr2) := run h (f a) s1 in (r2, s2, tr ++ tr2)
    | Err e => (Err e, s1, tr)
    end.
Proof.
  revert s. induction p as [a | e | op k IH]; intros s; simpl.
  - destruct (run h (f a) s) as [[r2 s2] tr2]. reflexivity.
  - reflexivity.
  - destruct (h op s) as [r s1]. rewrite IH.
    destruct (run h (k r) s1) as [[r' s'] tr']. destruct r' as [a | e]; [|reflexivity].
    destruct (run h (f a) s') as [[r2 s2] tr2]. reflexivity.
Qed.

Lemma run_try_except {A} (p : prog resp A) (handler : exn -> prog resp A) (s : St) :
  run h (try_except p handler) s =
    let '(r, s1, tr) := run h p s in
    match r with
    | Ok a => (Ok a, s1, tr)
    | Err e => let '(r2, s2, tr2) := run h (handler e) s1 in (r2, s2, tr ++ tr2)
    end.
Proof.
  revert s. induction p as [a | e | op k IH]; intros s; simpl.
  - reflexivity.
  - destruct (run h (handler e) s) as [[r2 s2] tr2]. reflexivity.
  - destruct (h op s) as [r s1]. rewrite IH.
    destruct (run h (k r) s1) as [[r' s'] tr']. destruct r' as [a | e]; [reflexivity|].
    destruct (run h (handler e) s') as [[r2 s2] tr2]. reflexivity.
Qed.

Lemma run_call (op : Op) (s : St) :
  run h (call op) s = let '(r, s1) := h op s in (r, s1, [Ev op r]).
Proof.
  unfold call. simpl. destruct (h op s) as [[a | e] s1]; reflexivity.
Qed.

Lemma run_lift {A} (r : outcome A) (s : St) : run h (lift r) s = (r, s, []).
Proof. destruct r; reflexivity. Qed.

End RunLemmas.

(** One step of symbolic execution of a program run. *)
Ltac run_step :=
  repeat first [rewrite run_bind | rewrite run_try_except | rewrite run_call
               | rewrite run_lift];
  cbn [with_telemetry].

(** Close a goal between two runs that differ by list bookkeeping. *)
Ltac run_done := cbn [run app]; rewrite ?app_nil_r; reflexivity.

(** ** The context registrar *)

Section Registrar.
Context {St : Type} (h : handler resp St).

Implicit Types (s : St) (context_spec : ContextSpec.t)
  (parent_contexts : option (list Context.t)).

(** C2 -- when the lookup by (type name, context name) finds a context, the
    registrar returns exactly that context and its only call is that lookup:
    no type registration, no context insert and no parent edge insert,
    whatever the parent list. *)
Theorem register_existing_is_lookup_only context_spec parent_contexts s found s1 :
  h (get_context_by_type_and_name
       (ContextType.name (ContextSpec.type context_spec))
       (ContextSpec.name context_spec)) s = (Ok (Some found), s1) ->
  let answer := exec h (_register_context_if_not_exist context_spec parent_contexts) s in
  answer =
    (Ok found, s1,
     [Ev (get_context_by_type_and_name
            (ContextType.name (ContextSpec.type context_spec))
            (ContextSpec.name context_spec)) (Ok (Some found))])
  /\ existsb is_mutation (calls_of answer) = false.
Proof.
  intros Hget. cbv zeta. unfold _register_context_if_not_exist.
  run_step. rewrite Hget. split; reflexivity.
Qed.

(** The edge registrar, run against any store: one edge insert, whose
    AlreadyExists answer is swallowed and whose other failures are raised
    before telemetry is reached. *)
Lemma put_parent_run parent_id child_id s :
  exec h (put_parent_context_if_not_exists parent_id child_id) s =
    let edge := put_parent_contexts (ParentContext.mk parent_id child_id) in
    let telemetry := noop_telemetry "context_lib" "put_parent_context_if_not_exists" in
    match h edge s with
    | (Ok u, s1) => (Ok tt, s1, [Ev edge (Ok u); Ev telemetry (Ok tt)])
    | (Err AlreadyExistsError, s1) =>
        (Ok tt, s1, [Ev edge (Err AlreadyExistsError); Ev telemetry (Ok tt)])
    | (Err e, s1) => (Err e, s1, [Ev edge (Err e)])
    end.
Proof.
  unfold put_parent_context_if_not_exists. run_step.
  destruct (h _ s) as [[u | e] s1]; [reflexivity|].
  destruct e; reflexivity.
Qed.

(** Edge inserts made by a completed loop over the parents: one per parent, in
    order, all for the same child. *)
Lemma link_loop_edges (parents : list Context.t) (child : Z) s s' tr :
  exec h (for_each parents
            (fun parent_context =>
               put_parent_context_if_not_exists (Context.id parent_context) child)) s
    = (Ok tt, s', tr) ->
  List.filter is_put_parent_contexts (map ev_op tr) =
    map (fun parent_context =>
           put_parent_contexts (ParentContext.mk (Context.id parent_context) child))
        parents.
Proof.
  revert s s' tr. induction parents as [| p ps IH]; intros s s' tr; cbn [for_each].
  - intros [= <- <-]. reflexivity.
  - rewrite run_bind, put_parent_run. cbv zeta.
    destruct (h _ s) as [[u | e] s1].
    + destruct (exec h (for_each ps _) s1) as [[r2 s2] tr2] eqn:Hrest.
      intros [= -> <- <-]. simpl. f_equal. eapply IH. exact Hrest.
    + destruct e;
        try (intros [= ? ? ?]; discriminate).
      destruct (exec h (for_each ps _) s1) as [[r2 s2] tr2] eqn:Hrest.
      intros [= -> <- <-]. simpl. f_equal. eapply IH. exact Hrest.
Qed.

Lemma link_parents_edges parent_contexts (context : Context.t) s s' tr :
  exec h (link_parents parent_contexts context) s = (Ok tt, s', tr) ->
  List.filter is_put_parent_contexts (map ev_op tr) =
    map (fun parent_context =>
           put_parent_contexts
             (ParentContext.mk (Context.id parent_context) (Context.id context)))
        (default [] parent_contexts).
Proof.
  unfold link_parents. destruct parent_contexts as [[| p ps] |]; simpl truthy; cbv iota.
  - intros [= <- <-]. reflexivity.
  - apply link_loop_edges.
  - intros [= <- <-]. reflexivity.
Qed.

(** The registrar run against any store, call by call. *)
Lemma register_run context_spec parent_contexts s :
  exec h (_register_context_if_not_exist context_spec parent_contexts) s =
    let context_name := ContextSpec.name context_spec in
    let lookup :=
      get_context_by_type_and_name
        (ContextType.name (ContextSpec.type context_spec)) context_name in
    match h lookup s with
    | (Err e, s1) => (Err e, s1, [Ev lookup (Err e)])
    | (Ok (Some found), s1) => (Ok found, s1, [Ev lookup (Ok (Some found))])
    | (Ok None, s1) =>
        let ensure := register_type_if_not_exist (ContextSpec.type context_spec) in
        match h ensure s1 with
        | (Err e, s2) => (Err e, s2, [Ev lookup (Ok None); Ev ensure (Err e)])
        | (Ok context_type, s2) =>
            let before := [Ev lookup (Ok None); Ev ensure (Ok context_type)] in
            match fill_properties context_type
                    (map_to_list (ContextSpec.properties context_spec))
                    (Context.mk 0 (ContextType.id context_type) context_name ∅ ∅) with
            | Err e => (Err e, s2, before)
            | Ok context =>
                let insert := put_contexts context in
                match h insert s2 with
                | (Ok context_id, s3) =>
                    after_linking h parent_contexts (Context.set_id context context_id)
                      (before ++ [Ev insert (Ok context_id)]) s3
                | (Err AlreadyExistsError, s3) =>
                    let before := before ++ [Ev insert (Err AlreadyExistsError)] in
                    match h lookup s3 with
                    | (Ok (Some found), s4) =>
                        after_linking h parent_contexts found
                          (before ++ [Ev lookup (Ok (Some found))]) s4
                    | (Ok None, s4) =>
                        (Err (AssertionError context_name), s4,
                         before ++ [Ev lookup (Ok None)])
                    | (Err e, s4) => (Err e, s4, before ++ [Ev lookup (Err e)])
                    end
                | (Err e, s3) => (Err e, s3, before ++ [Ev insert (Err e)])
                end
            end
        end
    end.
Proof.
  unfold _register_context_if_not_exist, _generate_context_proto, after_linking.
  cbv zeta. run_step.
  destruct (h (get_context_by_type_and_name _ _) s) as [[[found |] | e] s1];
    [run_done | | run_done].
  run_step.
  destruct (h (register_type_if_not_exist _) s1) as [[context_type | e] s2];
    [| run_done].
  run_step.
  destruct (fill_properties _ _ _) as [context | e]; [| run_done].
  run_step.
  destruct (h (put_contexts context) s2) as [[context_id | e] s3].
  - cbn [run]. run_step.
    destruct (exec h (link_parents _ _) s3) as [[[[] | e] s5] tr]; run_done.
  - destruct e; try run_done.
    run_step.
    destruct (h (get_context_by_type_and_name _ _) s3) as [[[found |] | e] s4];
      [| run_done | run_done].
    cbn [run]. run_step.
    destruct (exec h (link_parents _ _) s4) as [[[[] | e] s5] tr]; run_done.
Qed.

(** Linking parents never raises AlreadyExists: the edge registrar swallows it. *)
Lemma link_loop_no_conflict (parents : list Context.t) (child : Z) s :
  result_of
    (exec h (for_each parents
               (fun parent_context =>
                  put_parent_context_if_not_exists (Context.id parent_context) child)) s)
    <> Err AlreadyExistsError.
Proof.
  revert s. induction parents as [| p ps IH]; intros s; cbn [for_each].
  - discriminate.
  - rewrite run_bind, put_parent_run. cbv zeta.
    destruct (h _ s) as [[u | e] s1].
    + specialize (IH s1).
      destruct (exec h (for_each ps _) s1) as [[r2 s2] tr2]. exact IH.
    + destruct e; try discriminate.
      specialize (IH s1).
      destruct (exec h (for_each ps _) s1) as [[r2 s2] tr2]. exact IH.
Qed.

Lemma link_parents_no_conflict parent_contexts (context : Context.t) s :
  result_of (exec h (link_parents parent_contexts context) s) <> Err AlreadyExistsError.
Proof.
  unfold link_parents. destruct (truthy parent_contexts).
  - apply link_loop_no_conflict.
  - discriminate.
Qed.

Lemma link_parents_falsy parent_contexts (context : Context.t) s :
  truthy parent_contexts = false ->
  exec h (link_parents parent_contexts context) s = (Ok tt, s, []).
Proof. unfold link_parents. intros ->. reflexivity. Qed.

(** C3 -- when the lookup finds nothing and the insert of the built context is
    refused with AlreadyExists, the registrar reads the context again by the
    same (type name, context name).  If the re-read finds a context, that
    context is what the registrar answers once the parent-linking block that
    ends the function has run (at once when there are no parents), and the
    answer is never the AlreadyExists condition.  If the re-read finds
    nothing, the call fails with the assertion error right there: the re-read
    is the last call, nothing is retried. *)
Theorem register_conflict_rereads context_spec parent_contexts s s1 s2 s3
    context_type context :
  let context_name := ContextSpec.name context_spec in
  let lookup :=
    get_context_by_type_and_name
      (ContextType.name (ContextSpec.type context_spec)) context_name in
  let ensure := register_type_if_not_exist (ContextSpec.type context_spec) in
  let insert := put_contexts context in
  h lookup s = (Ok None, s1) ->
  h ensure s1 = (Ok context_type, s2) ->
  fill_properties context_type (map_to_list (ContextSpec.properties context_spec))
    (Context.mk 0 (ContextType.id context_type) context_name ∅ ∅) = Ok context ->
  h insert s2 = (Err AlreadyExistsError, s3) ->
  let before :=
    [Ev lookup (Ok None); Ev ensure (Ok context_type);
     Ev insert (Err AlreadyExistsError)] in
  let answer :=
    exec h (_register_context_if_not_exist context_spec parent_contexts) s in
  match h lookup s3 with
  | (Ok (Some found), s4) =>
      let reread := before ++ [Ev lookup (Ok (Some found))] in
      answer = after_linking h parent_contexts found reread s4
      /\ result_of answer <> Err AlreadyExistsError
      /\ (truthy parent_contexts = false -> answer = (Ok found, s4, reread))
  | (Ok None, s4) =>
      answer = (Err (AssertionError context_name), s4, before ++ [Ev lookup (Ok None)])
  | (Err e, s4) => answer = (Err e, s4, before ++ [Ev lookup (Err e)])
  end.
Proof.
  intros context_name lookup ensure insert Hlookup Hensure Hfill Hinsert before answer.
  subst answer. rewrite register_run. cbv zeta.
  fold context_name. fold lookup. fold ensure.
  rewrite Hlookup, Hensure, Hfill. fold insert. rewrite Hinsert.
  destruct (h lookup s3) as [[[found |] | e] s4]; try reflexivity.
  split; [reflexivity | split].
  - unfold after_linking.
    pose proof (link_parents_no_conflict parent_contexts found s4) as Hl.
    destruct (exec h (link_parents parent_contexts found) s4) as [[[[] | e] s5] tr];
      cbn in *; congruence.
  - intros Hfalsy. unfold after_linking.
    rewrite (link_parents_falsy _ _ _ Hfalsy). rewrite app_nil_r. reflexivity.
Qed.

(** C1, as the code has it -- in the branch where the insert was refused with
    AlreadyExists, a call that returns a context has made one edge insert for
    every parent, in order, each with the returned (re-read) context as child. *)
Theorem register_conflict_links_parents context_spec parent_contexts s context s' tr :
  exec h (_register_context_if_not_exist context_spec parent_contexts) s
    = (Ok context, s', tr) ->
  existsb insert_conflicted tr = true ->
  List.filter is_put_parent_contexts (map ev_op tr) =
    map (fun parent_context =>
           put_parent_contexts
             (ParentContext.mk (Context.id parent_context) (Context.id context)))
        (default [] parent_contexts).
Proof.
  rewrite register_run. cbv zeta.
  destruct (h (get_context_by_type_and_name _ _) s) as [[[found |] | e] s1];
    [intros [= <- <- <-]; discriminate | | discriminate].
  destruct (h (register_type_if_not_exist _) s1) as [[context_type | e] s2];
    [| discriminate].
  destruct (fill_properties _ _ _) as [built | e]; [| discriminate].
  destruct (h (put_contexts built) s2) as [[context_id | e] s3].
  - unfold after_linking.
    destruct (exec h (link_parents _ _) s3) as [[[[] | e] s5] tr5] eqn:Hlink;
      [| discriminate].
    intros [= <- <- <-] _. cbn [map List.filter ev_op is_put_parent_contexts].
    eapply link_parents_edges. exact Hlink.
  - destruct e; try discriminate.
    destruct (h (get_context_by_type_and_name _ _) s3) as [[[found |] | e] s4];
      [| discriminate | discriminate].
    unfold after_linking.
    destruct (exec h (link_parents _ _) s4) as [[[[] | e] s5] tr5] eqn:Hlink;
      [| discriminate].
    intros [= <- <- <-] _. cbn [map List.filter ev_op is_put_parent_contexts].
    eapply link_parents_edges. exact Hlink.
Qed.

End Registrar.

(** ** The public wrapper *)

(** C10 -- the wrapper answers exactly what the registrar answers on the spec
    built from the type name and the string name (no schema, no properties),
    and leaves the store in the same state after the same store calls; all it
    adds is the telemetry no-op after a successful registration. *)
Theorem register_wrapper_is_registrar {St} (h : handler resp St)
    (context_type_name context_name : string) (parent_contexts : option (list Context.t))
    (s : St) :
  let wrapper :=
    exec h (register_context_if_not_exists context_type_name context_name parent_contexts) s in
  let registrar :=
    exec h (_register_context_if_not_exist
              (ContextSpec.mk (ContextType.mk 0 context_type_name ∅) context_name ∅)
              parent_contexts) s in
  result_of wrapper = result_of registrar
  /\ state_of wrapper = state_of registrar
  /\ events_of wrapper =
       events_of registrar ++
       (if is_Ok (result_of registrar)
        then [Ev (noop_telemetry "context_lib" "register_context_if_not_exists") (Ok tt)]
        else [])
  /\ store_calls (calls_of wrapper) = store_calls (calls_of registrar).
Proof.
  cbv zeta. unfold register_context_if_not_exists. cbv zeta. run_step.
  destruct (exec h (_register_context_if_not_exist _ _) s) as [[[context | e] s1] tr].
  - run_step. cbn [run]. unfold result_of, state_of, events_of, calls_of, store_calls.
    cbn [fst snd is_Ok app]. repeat split.
    unfold events_of. cbn [snd].
    rewrite map_app, List.filter_app. cbn. rewrite app_nil_r. reflexivity.
  - unfold result_of, state_of, events_of, calls_of, store_calls.
    cbn [fst snd is_Ok]. rewrite app_nil_r. repeat split.
Qed.

(** ** The edge registrar *)

Lemma insert_edge_present (s : MemStore.t) (e : ParentContext.t) :
  e ∈ MemStore.parent_contexts s ->
  MemStore.insert_edge s e = (Err AlreadyExistsError, s).
Proof. intros Hin. unfold MemStore.insert_edge. rewrite bool_decide_eq_true_2; done. Qed.

Lemma insert_edge_absent (s : MemStore.t) (e : ParentContext.t) :
  e ∉ MemStore.parent_contexts s ->
  MemStore.insert_edge s e =
    (Ok tt, MemStore.mk (MemStore.types s) (MemStore.contexts s)
              (MemStore.parent_contexts s ++ [e])).
Proof. intros Hin. unfold MemStore.insert_edge. rewrite bool_decide_eq_false_2; done. Qed.

(** On the in-memory store the edge registrar always succeeds and leaves the
    edge present, without repeating an edge. *)
Lemma put_parent_mem (s : MemStore.t) (parent_id child_id : Z) :
  let edge := ParentContext.mk parent_id child_id in
  let after := exec MemStore.handle (put_parent_context_if_not_exists parent_id child_id) s in
  result_of after = Ok tt
  /\ edge ∈ MemStore.parent_contexts (state_of after)
  /\ (edge ∈ MemStore.parent_contexts s -> state_of after = s)
  /\ (NoDup (MemStore.parent_contexts s) -> NoDup (MemStore.parent_contexts (state_of after))).
Proof.
  cbv zeta. rewrite put_parent_run. cbv zeta. cbn [MemStore.handle].
  destruct (decide (ParentContext.mk parent_id child_id ∈ MemStore.parent_contexts s))
    as [Hin | Hout].
  - rewrite (insert_edge_present _ _ Hin). cbn. auto.
  - rewrite (insert_edge_absent _ _ Hout). cbn. repeat split.
    + set_solver.
    + intros Hin. contradiction.
    + intros Hnd. apply NoDup_app. repeat split; [done | | apply NoDup_singleton].
      intros x Hx Hx'. apply list_elem_of_singleton in Hx'. subst. contradiction.
Qed.

(** C6 -- the edge registrar makes one edge insert.  If the store accepts it or
    reports AlreadyExists, the call returns without error; any other failure
    of the store is raised unchanged.  On the in-memory store, a second call
    for the same ordered pair returns without error and leaves the store as the
    first call left it, so the edge is not duplicated. *)
Theorem put_parent_context_idempotent :
  (forall St (h : handler resp St) (s : St) (parent_id child_id : Z),
     exec h (put_parent_context_if_not_exists parent_id child_id) s =
       let edge := put_parent_contexts (ParentContext.mk parent_id child_id) in
       let telemetry := noop_telemetry "context_lib" "put_parent_context_if_not_exists" in
       match h edge s with
       | (Ok u, s1) => (Ok tt, s1, [Ev edge (Ok u); Ev telemetry (Ok tt)])
       | (Err AlreadyExistsError, s1) =>
           (Ok tt, s1, [Ev edge (Err AlreadyExistsError); Ev telemetry (Ok tt)])
       | (Err e, s1) => (Err e, s1, [Ev edge (Err e)])
       end)
  /\ (forall (s : MemStore.t) (parent_id child_id : Z),
        let link := put_parent_context_if_not_exists parent_id child_id in
        let first := exec MemStore.handle link s in
        let second := exec MemStore.handle link (state_of first) in
        result_of first = Ok tt
        /\ result_of second = Ok tt
        /\ state_of second = state_of first
        /\ ParentContext.mk parent_id child_id ∈ MemStore.parent_contexts (state_of second)
        /\ (NoDup (MemStore.parent_contexts s) ->
            NoDup (MemStore.parent_contexts (state_of second)))).
Proof.
  split.
  - intros St h s parent_id child_id. apply put_parent_run.
  - intros s parent_id child_id. cbv zeta.
    destruct (put_parent_mem s parent_id child_id) as (Hr1 & Hin1 & _ & Hnd1).
    set (s1 := state_of (exec MemStore.handle
                           (put_parent_context_if_not_exists parent_id child_id) s)) in *.
    destruct (put_parent_mem s1 parent_id child_id) as (Hr2 & Hin2 & Hsame & Hnd2).
    cbv zeta in *. rewrite (Hsame Hin1) in *. auto.
Qed.

(** ** Registering twice on the in-memory store *)

(** The builder's loop only writes the two property maps. *)
Lemma fill_properties_header context_type items result context :
  fill_properties context_type items result = Ok context ->
  Context.id context = Context.id result
  /\ Context.type_id context = Context.type_id result
  /\ Context.name context = Context.name result.
Proof.
  revert result. induction items as [| [k v] rest IH]; intros result; cbn [fill_properties].
  - intros [= <-]. auto.
  - destruct (ContextType.properties context_type !! k) as [declared |].
    + destruct (decide _); [| discriminate].
      intros H. apply IH in H. exact H.
    + intros H. apply IH in H. exact H.
Qed.

Lemma find_snoc {A} (f : A -> bool) (l : list A) (x : A) :
  existsb f l = false -> f x = true -> List.find f (l ++ [x]) = Some x.
Proof.
  induction l as [| a l IH]; cbn; intros Hl Hx.
  - rewrite Hx. reflexivity.
  - apply orb_false_iff in Hl as [Ha Hl]. rewrite Ha. auto.
Qed.

Lemma find_none_existsb {A} (f : A -> bool) (l : list A) :
  List.find f l = None -> existsb f l = false.
Proof.
  induction l as [| a l IH]; cbn; [reflexivity |].
  destruct (f a); [discriminate | auto].
Qed.

(** After the type registrar ran, the type is found under its name; contexts
    are untouched. *)
Lemma ensure_type_registered (s s2 : MemStore.t) (ty registered : ContextType.t) :
  MemStore.ensure_type s ty = (Ok registered, s2) ->
  MemStore.type_by_name s2 (ContextType.name ty) = Some registered
  /\ MemStore.contexts s2 = MemStore.contexts s.
Proof.
  unfold MemStore.ensure_type.
  destruct (MemStore.type_by_name s (ContextType.name ty)) as [found |] eqn:Hfind.
  - intros [= <- <-]. auto.
  - intros [= <- <-]. split; [| reflexivity].
    unfold MemStore.type_by_name in *. cbn [MemStore.types].
    apply find_snoc.
    + apply find_none_existsb. exact Hfind.
    + cbn. apply bool_decide_eq_true_2. reflexivity.
Qed.

(** A context the store accepted is what a lookup by its type's name and its
    own name finds from then on. *)
Lemma insert_context_then_lookup (s2 s3 : MemStore.t) (ty : ContextType.t)
    (type_name : string) (c : Context.t) (context_id : Z) :
  MemStore.type_by_name s2 type_name = Some ty ->
  Context.type_id c = ContextType.id ty ->
  MemStore.insert_context s2 c = (Ok context_id, s3) ->
  MemStore.lookup s3 type_name (Context.name c) = Some (Context.set_id c context_id).
Proof.
  intros Hty Hid. unfold MemStore.insert_context.
  destruct (existsb _ _) eqn:Hfresh; [discriminate |].
  intros [= <- <-]. unfold MemStore.lookup, MemStore.type_by_name in Hty |- *.
  cbn [MemStore.types MemStore.contexts]. rewrite Hty. rewrite <- Hid.
  apply find_snoc; [exact Hfresh |].
  unfold MemStore.same_key. cbn.
  rewrite !bool_decide_eq_true_2; reflexivity.
Qed.

(** ** The context builder *)

Section Builder.
Context (context_type : ContextType.t).

Let schema := ContextType.properties context_type.

(** A completed loop: every item met its declared kind, items with a declared
    key went to [properties], the others to [custom_properties]. *)
Lemma fill_properties_ok (items : list (string * Value)) (result context : Context.t) :
  NoDup items.*1 ->
  fill_properties context_type items result = Ok context ->
  (forall k v declared,
     (k, v) ∈ items -> schema !! k = Some declared ->
     declared = data_types_utils.get_metadata_value_type v)
  /\ (forall k,
        Context.properties context !! k =
          match schema !! k, (list_to_map items : gmap string Value) !! k with
          | Some _, Some v => Some v
          | _, _ => Context.properties result !! k
          end)
  /\ (forall k,
        Context.custom_properties context !! k =
          match schema !! k, (list_to_map items : gmap string Value) !! k with
          | None, Some v => Some v
          | _, _ => Context.custom_properties result !! k
          end).
Proof.
  subst schema. revert result.
  induction items as [| [k0 v0] rest IH]; intros result Hnd; cbn [fill_properties].
  - intros [= <-]. repeat split.
    + intros k v declared Hin. inversion Hin.
    + intros k. cbn. rewrite lookup_empty.
      destruct (ContextType.properties context_type !! k); reflexivity.
    + intros k. cbn. rewrite lookup_empty.
      destruct (ContextType.properties context_type !! k); reflexivity.
  - cbn in Hnd. apply NoDup_cons in Hnd as [Hfresh Hnd].
    assert ((list_to_map rest : gmap string Value) !! k0 = None) as Hk0
      by (apply not_elem_of_list_to_map_1; exact Hfresh).
    destruct (ContextType.properties context_type !! k0) as [declared0 |] eqn:Hdecl.
    + destruct (decide (declared0 = _)) as [Hkind | Hkind]; [| discriminate].
      intros Hfill. destruct (IH _ Hnd Hfill) as (Hkinds & Hprops & Hcustom).
      repeat split.
      * intros k v declared Hin Hs. apply elem_of_cons in Hin as [[= -> ->] | Hin].
        -- congruence.
        -- eapply Hkinds; eauto.
      * intros k. rewrite Hprops. cbn [list_to_map foldr uncurry fst snd Context.properties
                                         Context.set_property].
        destruct (decide (k = k0)) as [-> | Hne].
        -- rewrite Hdecl, Hk0, !lookup_insert_eq. reflexivity.
        -- rewrite !lookup_insert_ne by congruence. reflexivity.
      * intros k. rewrite Hcustom. cbn [list_to_map foldr uncurry fst snd
                                         Context.custom_properties Context.set_property].
        destruct (decide (k = k0)) as [-> | Hne].
        -- rewrite Hdecl. reflexivity.
        -- rewrite !lookup_insert_ne by congruence. reflexivity.
    + intros Hfill. destruct (IH _ Hnd Hfill) as (Hkinds & Hprops & Hcustom).
      repeat split.
      * intros k v declared Hin Hs. apply elem_of_cons in Hin as [[= -> ->] | Hin].
        -- congruence.
        -- eapply Hkinds; eauto.
      * intros k. rewrite Hprops. cbn [list_to_map foldr uncurry fst snd Context.properties
                                         Context.set_custom_property].
        destruct (decide (k = k0)) as [-> | Hne].
        -- rewrite Hdecl. reflexivity.
        -- rewrite !lookup_insert_ne by congruence. reflexivity.
      * intros k. rewrite Hcustom. cbn [list_to_map foldr uncurry fst snd
                                         Context.custom_properties Context.set_custom_property].
        destruct (decide (k = k0)) as [-> | Hne].
        -- rewrite Hdecl, Hk0, !lookup_insert_eq. reflexivity.
        -- rewrite !lookup_insert_ne by congruence. reflexivity.
Qed.

(** A loop that raised: the error names an item whose kind differs from the
    kind declared for its key. *)
Lemma fill_properties_err (items : list (string * Value)) (result : Context.t) (e : exn) :
  fill_properties context_type items result = Err e ->
  exists k v declared,
    (k, v) ∈ items /\ schema !! k = Some declared
    /\ declared <> data_types_utils.get_metadata_value_type v
    /\ e = RuntimeError (data_types_utils.get_metadata_value_type v) declared k.
Proof.
  subst schema. revert result.
  induction items as [| [k0 v0] rest IH]; intros result; cbn [fill_properties].
  - discriminate.
  - destruct (ContextType.properties context_type !! k0) as [declared0 |] eqn:Hdecl.
    + destruct (decide (declared0 = _)) as [Hkind | Hkind].
      * intros H. apply IH in H as (k & v & d & Hin & ?). exists k, v, d.
        split; [right; exact Hin | assumption].
      * intros [= <-]. exists k0, v0, declared0. repeat split; [left | |]; done.
    + intros H. apply IH in H as (k & v & d & Hin & ?). exists k, v, d.
      split; [right; exact Hin | assumption].
Qed.

End Builder.

(** C5 -- the builder registers the spec's type and then places every declared
    property by the registered schema: a key of the schema whose value has the
    declared kind goes to [properties]; a key that the schema lacks goes to
    [custom_properties]; and as soon as some key of the schema carries a value
    of another kind the builder fails, with an error that carries such a key,
    the kind declared for it and the actual kind of its value. *)
Theorem generate_context_proto_places_properties {St} (h : handler resp St) (s s1 : St)
    (context_spec : ContextSpec.t) (context_type : ContextType.t) :
  h (register_type_if_not_exist (ContextSpec.type context_spec)) s = (Ok context_type, s1) ->
  let schema := ContextType.properties context_type in
  let declared := ContextSpec.properties context_spec in
  let kind_of := data_types_utils.get_metadata_value_type in
  exists built,
    exec h (_generate_context_proto context_spec) s =
      (built, s1,
       [Ev (register_type_if_not_exist (ContextSpec.type context_spec)) (Ok context_type)])
    /\ (forall k v kind,
          declared !! k = Some v -> schema !! k = Some kind -> kind <> kind_of v ->
          is_Ok built = false)
    /\ match built with
       | Ok context =>
           Context.type_id context = ContextType.id context_type
           /\ Context.name context = ContextSpec.name context_spec
           /\ (forall k v,
                 declared !! k = Some v ->
                 match schema !! k with
                 | Some kind =>
                     kind = kind_of v
                     /\ Context.properties context !! k = Some v
                     /\ Context.custom_properties context !! k = None
                 | None =>
                     Context.custom_properties context !! k = Some v
                     /\ Context.properties context !! k = None
                 end)
           /\ (forall k,
                 declared !! k = None ->
                 Context.properties context !! k = None
                 /\ Context.custom_properties context !! k = None)
       | Err e =>
           exists k v kind,
             declared !! k = Some v /\ schema !! k = Some kind
             /\ kind <> kind_of v /\ e = RuntimeError (kind_of v) kind k
       end.
Proof.
  intros Hensure schema declared kind_of.
  unfold _generate_context_proto. run_step. rewrite Hensure. run_step.
  eexists. split; [cbn [app]; reflexivity |].
  destruct (fill_properties _ _ _) as [context | e] eqn:Hfill.
  - pose proof (fill_properties_header _ _ _ _ Hfill) as (_ & Htid & Hname).
    apply fill_properties_ok in Hfill as (Hkinds & Hprops & Hcustom);
      [| apply NoDup_fst_map_to_list].
    assert (forall k, (list_to_map (map_to_list declared) : gmap string Value) !! k
                      = declared !! k) as Hback
      by (intros k; rewrite list_to_map_to_list; reflexivity).
    split; [| split; [exact Htid | split; [exact Hname | split]]].
    + intros k v kind Hk Hs Hne. exfalso. apply Hne. eapply Hkinds; eauto.
      apply elem_of_map_to_list. exact Hk.
    + intros k v Hk. pose proof (Hprops k) as Hp. pose proof (Hcustom k) as Hc.
      rewrite Hback, Hk in Hp, Hc. cbn in Hp, Hc.
      fold schema in Hp, Hc.
      destruct (schema !! k) as [kind |] eqn:Hs.
      * split; [| split; [exact Hp | rewrite Hc; apply lookup_empty]].
        eapply Hkinds; eauto. apply elem_of_map_to_list. exact Hk.
      * split; [exact Hc | rewrite Hp; apply lookup_empty].
    + intros k Hk. pose proof (Hprops k) as Hp. pose proof (Hcustom k) as Hc.
      rewrite Hback, Hk in Hp, Hc. cbn in Hp, Hc.
      rewrite Hp, Hc.
      destruct (ContextType.properties context_type !! k); split; apply lookup_empty.
  - split; [reflexivity |].
    apply fill_properties_err in Hfill as (k & v & kind & Hin & Hs & Hne & ->).
    exists k, v, kind. repeat split; try assumption.
    apply elem_of_map_to_list. exact Hin.
Qed.

(** ** The batch orchestrator *)

Section Batch.
Context {St : Type} (h : handler resp St).

(** The first loop registers the pipeline specs in encounter order, without
    parents, and appends the results to both loop variables. *)
Lemma pipeline_loop_run (specs : list ContextSpec.t)
    (pipeline_contexts result : list Context.t) (s : St) :
  exec h (for_fold specs (pipeline_contexts, result)
            (fun '(pipeline_contexts, result) context_spec =>
               if type_name_is context_spec constants.PIPELINE_CONTEXT_TYPE_NAME
               then
                 let* pipeline_context := _register_context_if_not_exist context_spec None in
                 Ret (pipeline_contexts ++ [pipeline_context], result ++ [pipeline_context])
               else Ret (pipeline_contexts, result))) s =
    let '(r, s', tr) :=
      exec h (batch.register_each (List.filter batch.is_pipeline specs) (fun _ => None)) s in
    (match r with
     | Ok contexts => Ok (pipeline_contexts ++ contexts, result ++ contexts)
     | Err e => Err e
     end, s', tr).
Proof.
  revert pipeline_contexts result s.
  induction specs as [| context_spec rest IH]; intros pipeline_contexts result s;
    cbn [for_fold List.filter batch.register_each].
  - cbn. rewrite !app_nil_r. reflexivity.
  - unfold batch.is_pipeline at 1.
    destruct (type_name_is context_spec constants.PIPELINE_CONTEXT_TYPE_NAME).
    + cbn [batch.register_each]. run_step.
      destruct (exec h (_register_context_if_not_exist context_spec None) s)
        as [[[context | e] s1] tr1]; [| reflexivity].
      cbn [run]. run_step. rewrite IH.
      destruct (exec h (batch.register_each _ _) s1) as [[[contexts | e] s2] tr2].
      * cbn [run]. rewrite <- !app_assoc. cbn [app]. rewrite !app_nil_r. reflexivity.
      * rewrite !app_nil_r. reflexivity.
    + run_step. cbn [run]. rewrite IH.
      destruct (exec h (batch.register_each _ _) s) as [[[contexts | e] s2] tr2];
        reflexivity.
Qed.

(** The second loop registers the other specs in their original order, with
    the parents of pass 2, and appends the results. *)
Lemma other_loop_run (specs : list ContextSpec.t)
    (pipeline_contexts result : list Context.t) (s : St) :
  exec h (other_loop specs pipeline_contexts result) s =
    let '(r, s', tr) :=
      exec h (batch.register_each
                (List.filter (fun context_spec => negb (batch.is_pipeline context_spec)) specs)
                (batch.pass2_parents pipeline_contexts)) s in
    (match r with
     | Ok contexts => Ok (result ++ contexts)
     | Err e => Err e
     end, s', tr).
Proof.
  unfold other_loop. revert result s.
  induction specs as [| context_spec rest IH]; intros result s;
    cbn [for_fold List.filter batch.register_each].
  - cbn. rewrite !app_nil_r. reflexivity.
  - unfold batch.is_pipeline at 1.
    destruct (type_name_is context_spec constants.PIPELINE_CONTEXT_TYPE_NAME);
      cbn [negb].
    + run_step. cbn [run]. rewrite IH.
      destruct (exec h (batch.register_each _ _) s) as [[[contexts | e] s2] tr2];
        reflexivity.
    + cbn [batch.register_each]. run_step.
      unfold batch.pass2_parents at 1. unfold batch.is_pipeline_run.
      destruct (exec h (_register_context_if_not_exist context_spec _) s)
        as [[[context | e] s1] tr1]; [| reflexivity].
      cbn [run]. run_step. rewrite IH.
      destruct (exec h (batch.register_each _ _) s1) as [[[contexts | e] s2] tr2].
      * cbn [run]. rewrite <- !app_assoc. cbn [app]. rewrite !app_nil_r. reflexivity.
      * rewrite !app_nil_r. reflexivity.
Qed.

(** The orchestrator against the two passes of section 4.5: same answer, same
    final store, same events, followed by the telemetry no-op on success. *)
Lemma prepare_contexts_run (specs : list ContextSpec.t) (s : St) :
  let code := exec h (prepare_contexts specs) s in
  let batch := exec h (batch.register_batch specs) s in
  result_of code = result_of batch
  /\ state_of code = state_of batch
  /\ events_of code =
       events_of batch ++
       (if is_Ok (result_of batch)
        then [Ev (noop_telemetry "context_lib" "prepare_contexts") (Ok tt)]
        else []).
Proof.
  cbv zeta. unfold prepare_contexts, batch.register_batch, pipeline_loop.
  run_step. rewrite pipeline_loop_run.
  destruct (exec h (batch.register_each _ (fun _ => None)) s)
    as [[[pipeline_contexts | e] s1] tr1]; [| cbn; rewrite app_nil_r; auto].
  cbn [app]. run_step. rewrite other_loop_run.
  destruct (exec h (batch.register_each _ (batch.pass2_parents _)) s1)
    as [[[others | e] s2] tr2].
  - run_step. cbn. rewrite !app_nil_r, <- !app_assoc. auto.
  - cbn. rewrite !app_nil_r. auto.
Qed.

End Batch.

(** C7 -- the orchestrator behaves as the two passes of section 4.5: it first
    registers every pipeline spec, without parents and in encounter order,
    then every remaining spec in original order, and answers the results of
    pass 1 followed by those of pass 2.  On the empty in-memory store, the
    batch [p1; r1; o1] answers p1, r1, o1, and so does the batch [r1; o1; p1]:
    the pipeline context comes first wherever its spec stands. *)
Theorem prepare_contexts_pipelines_first :
  (forall St (h : handler resp St) (specs : list ContextSpec.t) (s : St),
     let code := exec h (prepare_contexts specs) s in
     let batch := exec h (batch.register_batch specs) s in
     result_of code = result_of batch
     /\ state_of code = state_of batch
     /\ events_of code =
          events_of batch ++
          (if is_Ok (result_of batch)
           then [Ev (noop_telemetry "context_lib" "prepare_contexts") (Ok tt)]
           else []))
  /\ examples.names_of
       (exec MemStore.handle
          (prepare_contexts [examples.p1; examples.r1; examples.o1]) MemStore.empty)
     = Ok ["p1"; "r1"; "o1"]
  /\ examples.names_of
       (exec MemStore.handle
          (prepare_contexts [examples.r1; examples.o1; examples.p1]) MemStore.empty)
     = Ok ["p1"; "r1"; "o1"].
Proof.
  split; [| split].
  - intros St h specs s. apply prepare_contexts_run.
  - vm_compute. reflexivity.
  - vm_compute. reflexivity.
Qed.

(** C8 -- the first loop of the orchestrator collects the contexts of all the
    pipeline specs; the second loop registers every non-pipeline spec in
    original order, a pipeline-run spec with all the collected pipeline
    contexts as parents and any other spec with the empty parent list.  On the empty in-memory store, [p1; p2; r1] leaves r1 (id 3)
    linked to both p1 (id 1) and p2 (id 2), and [p1; r1; o1] leaves the single
    edge from p1 to r1: o1 has no parent. *)
Theorem pipeline_run_linked_to_all_pipelines :
  (forall St (h : handler resp St) (specs : list ContextSpec.t) (s : St),
     exec h (pipeline_loop specs) s =
       let '(r, s', tr) :=
         exec h (batch.register_each (List.filter batch.is_pipeline specs)
                   (fun _ => None)) s in
       (match r with
        | Ok pipeline_contexts => Ok (pipeline_contexts, pipeline_contexts)
        | Err e => Err e
        end, s', tr))
  /\ (forall St (h : handler resp St) (specs : list ContextSpec.t)
          (pipeline_contexts result : list Context.t) (s : St),
     exec h (other_loop specs pipeline_contexts result) s =
       let '(r, s', tr) :=
         exec h (batch.register_each
                   (List.filter (fun context_spec => negb (batch.is_pipeline context_spec))
                      specs)
                   (batch.pass2_parents pipeline_contexts)) s in
       (match r with
        | Ok contexts => Ok (result ++ contexts)
        | Err e => Err e
        end, s', tr))
  /\ (let after :=
        exec MemStore.handle
          (prepare_contexts [examples.p1; examples.p2; examples.r1]) MemStore.empty in
      option_map (map Context.id)
        (match result_of after with Ok contexts => Some contexts | Err _ => None end)
        = Some [1; 2; 3]%Z
      /\ MemStore.parent_contexts (state_of after)
         = [ParentContext.mk 1 3; ParentContext.mk 2 3])
  /\ MemStore.parent_contexts
       (state_of (exec MemStore.handle
                    (prepare_contexts [examples.p1; examples.r1; examples.o1])
                    MemStore.empty))
     = [ParentContext.mk 1 2].
Proof.
  split; [| split; [| split; [split |]]].
  - intros St h specs s. unfold pipeline_loop. apply pipeline_loop_run.
  - intros St h specs pipeline_contexts result s. apply other_loop_run.
  - vm_compute. reflexivity.
  - vm_compute. reflexivity.
  - vm_compute. reflexivity.
Qed.

(** ** Concrete runs *)

Lemma register_existing_is_lookup_only_witness :
  exec MemStore.handle
    (_register_context_if_not_exist examples.p1 (Some [examples.pipeline_context]))
    examples.store_with_pipeline
  = (Ok examples.pipeline_context, examples.store_with_pipeline,
     [Ev (get_context_by_type_and_name "pipeline" "p1")
         (Ok (Some examples.pipeline_context))]).
Proof.
  assert (MemStore.handle (get_context_by_type_and_name "pipeline" "p1")
            examples.store_with_pipeline
          = (Ok (Some examples.pipeline_context), examples.store_with_pipeline))
    as Hheld by (vm_compute; reflexivity).
  exact (proj1 (register_existing_is_lookup_only MemStore.handle examples.p1
                  (Some [examples.pipeline_context]) examples.store_with_pipeline
                  examples.pipeline_context examples.store_with_pipeline Hheld)).
Defined.

(** The run that loses the race on r1, with the pipeline context as parent,
    call by call: the lookup finds nothing; the other writer registers the
    type and inserts r1; our type registration finds the type, our insert is
    refused, the re-read finds the winner's r1 (id 2); then the edge from p1
    (id 1) to r1 is inserted all the same. *)
Example lost_race_events :
  exec RacyStore.handle
    (_register_context_if_not_exist examples.r1 (Some [examples.pipeline_context]))
    examples.race
  = (Ok examples.winner_r1,
     (MemStore.mk
        [ContextType.mk 1 "pipeline" ∅; examples.run_type]
        [examples.pipeline_context; examples.winner_r1]
        [ParentContext.mk 1 2], []),
     [Ev examples.lookup_r1 (Ok None);
      Ev (register_type_if_not_exist (ContextSpec.type examples.r1)) (Ok examples.run_type);
      Ev (put_contexts examples.built_r1) (Err AlreadyExistsError);
      Ev examples.lookup_r1 (Ok (Some examples.winner_r1));
      Ev (put_parent_contexts (ParentContext.mk 1 2)) (Ok tt);
      Ev (noop_telemetry "context_lib" "put_parent_context_if_not_exists") (Ok tt)]).
Proof. vm_compute. reflexivity. Qed.

(** C1, as stated, fails on that run: the insert was refused with
    AlreadyExists and an edge insert was made. *)
Lemma lost_race_still_links_parent :
  ~ conflict_leaves_parents_unlinked RacyStore.handle examples.race examples.r1
      [examples.pipeline_context].
Proof.
  unfold conflict_leaves_parents_unlinked. cbv zeta. intros Hno_edges.
  assert (existsb insert_conflicted
            (events_of
               (exec RacyStore.handle
                  (_register_context_if_not_exist examples.r1
                     (Some [examples.pipeline_context])) examples.race)) = true)
    as Hconflict by (vm_compute; reflexivity).
  apply Hno_edges in Hconflict. vm_compute in Hconflict. discriminate.
Qed.

Lemma register_conflict_links_parents_witness :
  List.filter is_put_parent_contexts
    (calls_of
       (exec RacyStore.handle
          (_register_context_if_not_exist examples.r1 (Some [examples.pipeline_context]))
          examples.race))
  = [put_parent_contexts (ParentContext.mk 1 2)].
Proof.
  set (after := exec RacyStore.handle
                  (_register_context_if_not_exist examples.r1
                     (Some [examples.pipeline_context])) examples.race).
  assert (after = (Ok examples.winner_r1, state_of after, events_of after)) as Hrun
    by (vm_compute; reflexivity).
  assert (existsb insert_conflicted (events_of after) = true) as Hconflict
    by (vm_compute; reflexivity).
  exact (register_conflict_links_parents RacyStore.handle examples.r1
           (Some [examples.pipeline_context]) examples.race examples.winner_r1
           (state_of after) (events_of after) Hrun Hconflict).
Defined.

Lemma register_conflict_rereads_witness :
  exec RacyStore.handle (_register_context_if_not_exist examples.r1 None) examples.race
  = (Ok examples.winner_r1, examples.race3,
     [Ev examples.lookup_r1 (Ok None);
      Ev (register_type_if_not_exist (ContextSpec.type examples.r1)) (Ok examples.run_type);
      Ev (put_contexts examples.built_r1) (Err AlreadyExistsError);
      Ev examples.lookup_r1 (Ok (Some examples.winner_r1))]).
Proof.
  assert (RacyStore.handle examples.lookup_r1 examples.race = (Ok None, examples.race1))
    as Hlookup by (vm_compute; reflexivity).
  assert (RacyStore.handle (register_type_if_not_exist (ContextSpec.type examples.r1))
            examples.race1 = (Ok examples.run_type, examples.race2))
    as Hensure by (vm_compute; reflexivity).
  assert (fill_properties examples.run_type
            (map_to_list (ContextSpec.properties examples.r1))
            (Context.mk 0 (ContextType.id examples.run_type)
               (ContextSpec.name examples.r1) ∅ ∅) = Ok examples.built_r1)
    as Hfill by (vm_compute; reflexivity).
  assert (RacyStore.handle (put_contexts examples.built_r1) examples.race2
          = (Err AlreadyExistsError, examples.race3))
    as Hinsert by (vm_compute; reflexivity).
  generalize (register_conflict_rereads RacyStore.handle examples.r1 None
                examples.race examples.race1 examples.race2 examples.race3
                examples.run_type examples.built_r1 Hlookup Hensure Hfill Hinsert).
  vm_compute. intros (_ & _ & Hanswer). exact (Hanswer eq_refl).
Defined.

(** Against a store that reports a duplicate and then finds nothing, the
    registrar fails with the assertion error after the re-read. *)
Example register_race_on_broken_store :
  exec BrokenStore.handle (_register_context_if_not_exist examples.r1 None) tt
  = (Err (AssertionError "r1"), tt,
     [Ev examples.lookup_r1 (Ok None);
      Ev (register_type_if_not_exist (ContextSpec.type examples.r1))
         (Ok (ContextSpec.type examples.r1));
      Ev (put_contexts (Context.mk 0 0 "r1" ∅ ∅)) (Err AlreadyExistsError);
      Ev examples.lookup_r1 (Ok None)]).
Proof. vm_compute. reflexivity. Qed.

(** A store failure other than AlreadyExists reaches the caller of the edge
    registrar unchanged. *)
Example put_parent_on_unavailable_store :
  exec UnavailableStore.handle (put_parent_context_if_not_exists 1 2) tt
  = (Err (StoreError "UNAVAILABLE"), tt,
     [Ev (put_parent_contexts (ParentContext.mk 1 2)) (Err (StoreError "UNAVAILABLE"))]).
Proof. vm_compute. reflexivity. Qed.

(** Registering p1 twice, starting from the empty store: the first call
    registers the type and inserts the context, which gets id 1; the second
    call finds that context with its first lookup and changes nothing. *)
Example register_twice_from_empty_store :
  exec MemStore.handle (_register_context_if_not_exist examples.p1 None) MemStore.empty
  = (Ok examples.pipeline_context, examples.store_with_pipeline,
     [Ev (get_context_by_type_and_name "pipeline" "p1") (Ok None);
      Ev (register_type_if_not_exist (ContextSpec.type examples.p1))
         (Ok (ContextType.mk 1 "pipeline" ∅));
      Ev (put_contexts (Context.mk 0 1 "p1" ∅ ∅)) (Ok 1%Z)])
  /\ exec MemStore.handle (_register_context_if_not_exist examples.p1 None)
       examples.store_with_pipeline
     = (Ok examples.pipeline_context, examples.store_with_pipeline,
        [Ev (get_context_by_type_and_name "pipeline" "p1")
            (Ok (Some examples.pipeline_context))]).
Proof. split; vm_compute; reflexivity. Qed.

Lemma generate_context_proto_places_properties_witness :
  exists context,
    result_of (exec MemStore.handle (_generate_context_proto examples.owned_spec)
                 MemStore.empty) = Ok context
    /\ Context.properties context !! "owner" = Some (string_value "ml")
    /\ Context.custom_properties context !! "owner" = None
    /\ Context.custom_properties context !! "note" = Some (int_value 7)
    /\ Context.properties context !! "note" = None.
Proof.
  assert (MemStore.handle (register_type_if_not_exist (ContextSpec.type examples.owned_spec))
            MemStore.empty
          = (Ok examples.owned_registered, examples.store_with_owned_type))
    as Hensure by (vm_compute; reflexivity).
  destruct (generate_context_proto_places_properties MemStore.handle MemStore.empty
              examples.store_with_owned_type examples.owned_spec
              examples.owned_registered Hensure)
    as (built & Hrun & _ & Hplaced).
  destruct built as [context | e]; [| vm_compute in Hrun; discriminate].
  destruct Hplaced as (_ & _ & Hdeclared & _).
  exists context. rewrite Hrun. split; [reflexivity |].
  assert (ContextType.properties examples.owned_registered !! "owner" = Some STRING)
    as Howner_kind by (vm_compute; reflexivity).
  assert (ContextType.properties examples.owned_registered !! "note" = None)
    as Hnote_kind by (vm_compute; reflexivity).
  pose proof (Hdeclared "owner" (string_value "ml") eq_refl) as Howner.
  pose proof (Hdeclared "note" (int_value 7) eq_refl) as Hnote.
  rewrite Howner_kind in Howner. rewrite Hnote_kind in Hnote.
  destruct Howner as (_ & Hp & Hc). destruct Hnote as (Hc' & Hp'). auto.
Defined.

(** A value of the wrong kind under a declared key: the builder raises the
    mismatch with the actual kind, the declared kind and the key. *)
Example generate_context_proto_mismatch :
  result_of (exec MemStore.handle (_generate_context_proto examples.mistyped_spec)
               MemStore.empty)
  = Err (RuntimeError INT STRING "owner").
Proof. vm_compute. reflexivity. Qed.

(** ** The execution dispatcher *)

(** C9 -- the dispatcher, call by call, whatever the collaborators answer.  It
    first imports the class path of the executable spec.  With the MLMD
    connection config flag set to a non-empty value it decodes that value and
    runs the driver on the spec, the decoded config and the invocation; with
    the flag unset or empty it runs the executor on the spec and the
    invocation, and decodes nothing.  A result of the driver or executor is
    serialized and written to the invocation's [execution_output_uri]; when
    the executor answers no result nothing is written.  A failing call ends
    the dispatch with its error.  Hence: the import is the first call, the
    driver is called only with the flag set and the executor only without, a
    dispatch that completes has called exactly the one the flag selects, and
    the files written are exactly the serialized result, if one was
    produced. *)
Theorem run_dispatches_driver_or_executor {St}
    (h : handler python_execution_lib.resp St) (s : St)
    (MLMD_CONNECTION_CONFIG_FLAG_value : option string)
    (executable_spec : python_execution_lib.ExecutableSpec)
    (execution_info : python_execution_lib.ExecutionInfo) :
  let dispatched :=
    run h (python_execution_lib.run MLMD_CONNECTION_CONFIG_FLAG_value
             executable_spec execution_info) s in
  let calls := calls_of dispatched in
  let config_supplied := python_execution_lib.flag_set MLMD_CONNECTION_CONFIG_FLAG_value in
  let import :=
    python_execution_lib.import_class_by_path
      (python_execution_lib.class_path_of executable_spec) in
  let executor := python_execution_lib.run_executor executable_spec execution_info in
  let executor_run (imported : outcome unit) (s1 : St) :=
    match h executor s1 with
    | (Err e, s2) => (Err e, s2, [Ev import imported; Ev executor (Err e)])
    | (Ok run_result, s2) =>
        written h execution_info run_result
          [Ev import imported; Ev executor (Ok run_result)] s2
    end in
  let driver_run (b64 : string) (imported : outcome unit) (s1 : St) :=
    let decode := python_execution_lib.deserialize_mlmd_connection_config b64 in
    match h decode s1 with
    | (Err e, s2) => (Err e, s2, [Ev import imported; Ev decode (Err e)])
    | (Ok mlmd_connection_config, s2) =>
        let driver :=
          python_execution_lib.run_driver executable_spec mlmd_connection_config
            execution_info in
        match h driver s2 with
        | (Err e, s3) =>
            (Err e, s3,
             [Ev import imported; Ev decode (Ok mlmd_connection_config);
              Ev driver (Err e)])
        | (Ok driver_output, s3) =>
            written h execution_info (Some driver_output)
              [Ev import imported; Ev decode (Ok mlmd_connection_config);
               Ev driver (Ok driver_output)] s3
        end
    end in
  dispatched =
    match h import s with
    | (Err e, s1) => (Err e, s1, [Ev import (Err e)])
    | (Ok imported, s1) =>
        match MLMD_CONNECTION_CONFIG_FLAG_value with
        | Some b64 =>
            if bool_decide (b64 = "")
            then executor_run (Ok imported) s1
            else driver_run b64 (Ok imported) s1
        | None => executor_run (Ok imported) s1
        end
    end
  /\ hd_error calls = Some import
  /\ (existsb python_execution_lib.is_run_driver calls = true -> config_supplied = true)
  /\ (existsb python_execution_lib.is_run_executor calls = true -> config_supplied = false)
  /\ (result_of dispatched = Ok tt ->
      existsb python_execution_lib.is_run_driver calls = config_supplied
      /\ existsb python_execution_lib.is_run_executor calls = negb config_supplied)
  /\ python_execution_lib.writes_of calls =
       match python_execution_lib.produced (events_of dispatched) with
       | Some message =>
           [(python_execution_lib.execution_output_uri execution_info,
             python_execution_lib.SerializeToString message)]
       | None => []
       end.
Proof.
  cbv zeta. split.
  - unfold python_execution_lib.run, python_execution_lib._run_python_custom_component,
      python_execution_lib._import_class_path, python_execution_lib._run_driver,
      python_execution_lib.flag_set, written, call.
    destruct executable_spec as [class_path | class_path];
      destruct MLMD_CONNECTION_CONFIG_FLAG_value as [b64 |];
      cbn;
      try destruct (bool_decide (b64 = ""));
      cbn;
      repeat (match goal with
              | |- context [h ?o ?s0] => destruct (h o s0) as [[? | ?] ?]; cbn
              | |- context [match ?x with Some _ => _ | None => _ end] =>
                  is_var x; destruct x; cbn
              end);
      reflexivity.
  - unfold python_execution_lib.run, python_execution_lib._run_python_custom_component,
      python_execution_lib._import_class_path, python_execution_lib._run_driver, call.
    destruct executable_spec as [class_path | class_path];
      destruct (python_execution_lib.flag_set MLMD_CONNECTION_CONFIG_FLAG_value);
      cbn;
      repeat (match goal with
              | |- context [h ?o ?s0] => destruct (h o s0) as [[? | ?] ?]; cbn
              | |- context [match ?x with Some _ => _ | None => _ end] =>
                  is_var x; destruct x; cbn
              end);
      intuition congruence.
Qed.

(** A driver run writes the driver's output; an executor run that produces
    nothing writes nothing; an empty flag value counts as not set. *)
Example dispatch_on_scripted_runtime :
  let info := {| python_execution_lib.execution_output_uri := "/tmp/out";
                 python_execution_lib.invocation := "" |} in
  let spec := python_execution_lib.PythonClassExecutableSpec "my.module.Component" in
  calls_of (run (python_execution_lib.scripted None)
              (python_execution_lib.run (Some "Y29uZmln") spec info) tt)
  = [python_execution_lib.import_class_by_path "my.module.Component";
     python_execution_lib.deserialize_mlmd_connection_config "Y29uZmln";
     python_execution_lib.run_driver spec "Y29uZmln" info;
     python_execution_lib.fileio_write "/tmp/out" "driver-output"]
  /\ calls_of (run (python_execution_lib.scripted None)
                 (python_execution_lib.run None spec info) tt)
     = [python_execution_lib.import_class_by_path "my.module.Component";
        python_execution_lib.run_executor spec info]
  /\ calls_of (run (python_execution_lib.scripted None)
                 (python_execution_lib.run (Some "") spec info) tt)
     = [python_execution_lib.import_class_by_path "my.module.Component";
        python_execution_lib.run_executor spec info].
Proof. cbv zeta. repeat split; vm_compute; reflexivity. Qed.

(** * Further properties *)

(** ** The registrar against any store *)

Lemma last_failure_app {Op} {resp : Op -> Type} (tr1 tr2 : list (event resp)) :
  tr2 <> [] -> observe.last_failure (tr1 ++ tr2) = observe.last_failure tr2.
Proof.
  intros Hne. induction tr1 as [| e tr1 IH]; [reflexivity |].
  cbn [app observe.last_failure]. destruct (tr1 ++ tr2) eqn:Happ.
  - apply app_eq_nil in Happ as [_ ->]. contradiction.
  - exact IH.
Qed.

Section RegistrarAnyStore.
Context {St : Type} (h : handler resp St).

(** The loop over the parents makes edge inserts and telemetry calls only, at
    most one edge insert per parent, and fails only with the failure of its
    last call. *)
Lemma link_loop_shape (parents : list Context.t) (child : Z) (s : St) :
  let linked :=
    exec h (for_each parents
              (fun parent_context =>
                 put_parent_context_if_not_exists (Context.id parent_context) child)) s in
  forallb (fun o => is_put_parent_contexts o || is_telemetry o) (calls_of linked) = true
  /\ (observe.count is_put_parent_contexts (calls_of linked) <= length parents)%nat
  /\ (forall e, result_of linked = Err e -> observe.last_failure (events_of linked) = Some e).
Proof.
  cbv zeta. revert s. induction parents as [| p ps IH]; intros s; cbn [for_each].
  - cbn. repeat split; [lia | discriminate].
  - rewrite run_bind, put_parent_run. cbv zeta.
    destruct (h _ s) as [[u | e] s1].
    + specialize (IH s1).
      destruct (exec h (for_each ps _) s1) as [[r2 s2] tr2].
      unfold calls_of, result_of, events_of, observe.count in *. cbn in IH |- *.
      destruct IH as (Hall & Hcount & Hfail). repeat split; [exact Hall | lia |].
      intros e He. destruct tr2 as [| ev tr2]; [apply Hfail in He; discriminate |].
      apply Hfail in He. exact He.
    + destruct e;
        try (cbn; repeat split; [lia | intros ? [= <-]; reflexivity]).
      specialize (IH s1).
      destruct (exec h (for_each ps _) s1) as [[r2 s2] tr2].
      unfold calls_of, result_of, events_of, observe.count in *. cbn in IH |- *.
      destruct IH as (Hall & Hcount & Hfail). repeat split; [exact Hall | lia |].
      intros e He. destruct tr2 as [| ev tr2]; [apply Hfail in He; discriminate |].
      apply Hfail in He. exact He.
Qed.

Lemma link_parents_shape parent_contexts (context : Context.t) (s : St) :
  let linked := exec h (link_parents parent_contexts context) s in
  forallb (fun o => is_put_parent_contexts o || is_telemetry o) (calls_of linked) = true
  /\ (observe.count is_put_parent_contexts (calls_of linked)
       <= length (default [] parent_contexts))%nat
  /\ (forall e, result_of linked = Err e -> observe.last_failure (events_of linked) = Some e).
Proof.
  cbv zeta. unfold link_parents. destruct parent_contexts as [[| p ps] |]; cbn [truthy default].
  - cbn. repeat split; [lia | discriminate].
  - apply link_loop_shape.
  - cbn. repeat split; [lia | discriminate].
Qed.

End RegistrarAnyStore.

Lemma filter_none_of_shape (kind : op -> bool) (calls : list op) :
  (forall o, is_put_parent_contexts o || is_telemetry o = true -> kind o = false) ->
  forallb (fun o => is_put_parent_contexts o || is_telemetry o) calls = true ->
  List.filter kind calls = [].
Proof.
  intros Hkind. induction calls as [| o calls IH]; cbn; [reflexivity |].
  intros Hall. apply andb_true_iff in Hall as [Ho Hall].
  rewrite (Hkind o Ho). auto.
Qed.

Lemma inserted_id_app (tr1 tr2 : list (event resp)) :
  observe.inserted_id (tr1 ++ tr2) =
    match observe.inserted_id tr1 with
    | Some context_id => Some context_id
    | None => observe.inserted_id tr2
    end.
Proof.
  induction tr1 as [| [o r] tr1 IH]; [reflexivity |].
  cbn [app observe.inserted_id ev_op ev_res].
  destruct o; try exact IH. destruct r; [reflexivity | exact IH].
Qed.

Lemma inserted_id_none_of_shape (tr : list (event resp)) :
  forallb (fun o => is_put_parent_contexts o || is_telemetry o) (map ev_op tr) = true ->
  observe.inserted_id tr = None.
Proof.
  induction tr as [| [o r] tr IH]; [reflexivity |].
  cbn [map forallb observe.inserted_id ev_op ev_res].
  intros Hall. apply andb_true_iff in Hall as [Ho Hall].
  destruct o; try discriminate; auto.
Qed.

Lemma accounted_nil (raised : option exn) : observe.accounted raised [].
Proof. split; [reflexivity | discriminate]. Qed.

Lemma accounted_ok (raised : option exn) (a : event resp) (l : list (event resp)) :
  observe.succeeded a = true -> observe.accounted raised l ->
  observe.accounted raised (a :: l).
Proof.
  intros Ha [Hbefore Hlast]. destruct l as [| b l].
  - split; [reflexivity |]. cbn. intros x Hx.
    unfold observe.succeeded in Ha. unfold observe.failure_of in Hx.
    destruct (ev_res a); discriminate.
  - split.
    + change (removelast (a :: b :: l)) with (a :: removelast (b :: l)).
      cbn [forallb]. rewrite Ha, Hbefore. reflexivity.
    + exact Hlast.
Qed.

Lemma accounted_masked (raised : option exn) (a : event resp) (l : list (event resp)) :
  observe.masked a = true -> l <> [] -> observe.accounted raised l ->
  observe.accounted raised (a :: l).
Proof.
  intros Ha Hne [Hbefore Hlast]. destruct l as [| b l]; [contradiction |]. split.
  - change (removelast (a :: b :: l)) with (a :: removelast (b :: l)).
    cbn [forallb]. rewrite Ha, Hbefore, orb_true_r. reflexivity.
  - exact Hlast.
Qed.

Lemma accounted_fail (a : event resp) (x : exn) :
  observe.failure_of a = Some x -> observe.accounted (Some x) [a].
Proof. intros Ha. split; [reflexivity |]. cbn. congruence. Qed.

(** Account for the failures of a run whose events are listed explicitly. *)
Ltac account :=
  repeat first
    [ assumption
    | apply accounted_nil
    | apply accounted_fail; reflexivity
    | apply accounted_ok; [reflexivity |]
    | apply accounted_masked; [reflexivity | discriminate |] ].

Section RegistrarOutcomes.
Context {St : Type} (h : handler resp St).

Lemma link_loop_accounted (parents : list Context.t) (child : Z) (s : St) :
  let linked :=
    exec h (for_each parents
              (fun parent_context =>
                 put_parent_context_if_not_exists (Context.id parent_context) child)) s in
  observe.accounted (error_of (result_of linked)) (events_of linked).
Proof.
  cbv zeta. revert s. induction parents as [| p ps IH]; intros s; cbn [for_each].
  - apply accounted_nil.
  - rewrite run_bind, put_parent_run. cbv zeta.
    destruct (h _ s) as [[u | e] s1].
    + specialize (IH s1).
      destruct (exec h (for_each ps _) s1) as [[r2 s2] tr2].
      unfold result_of, events_of in *. cbn [fst snd app] in *. account.
    + destruct e; try (unfold result_of, events_of; cbn [fst snd error_of]; account).
      specialize (IH s1).
      destruct (exec h (for_each ps _) s1) as [[r2 s2] tr2].
      unfold result_of, events_of in *. cbn [fst snd app] in *. account.
Qed.

Lemma link_parents_accounted parent_contexts (context : Context.t) (s : St) :
  let linked := exec h (link_parents parent_contexts context) s in
  observe.accounted (error_of (result_of linked)) (events_of linked).
Proof.
  cbv zeta. unfold link_parents. destruct (truthy parent_contexts).
  - apply link_loop_accounted.
  - apply accounted_nil.
Qed.

Lemma after_linking_accounted parent_contexts (context : Context.t)
    (before : list (event resp)) (s : St) :
  (forall raised l, observe.accounted raised l -> observe.accounted raised (before ++ l)) ->
  let answer := after_linking h parent_contexts context before s in
  observe.accounted (error_of (result_of answer)) (events_of answer).
Proof.
  intros Hbefore. cbv zeta. unfold after_linking.
  pose proof (link_parents_accounted parent_contexts context s) as Hlink.
  cbv zeta in Hlink.
  destruct (exec h (link_parents parent_contexts context) s) as [[linked s5] tr5].
  unfold result_of, events_of in *. cbn [fst snd] in *.
  apply Hbefore. destruct linked; exact Hlink.
Qed.

(** Every failure of a registration's calls is accounted for. *)
Lemma register_accounted (context_spec : ContextSpec.t)
    (parent_contexts : option (list Context.t)) (s : St) :
  let answer := exec h (_register_context_if_not_exist context_spec parent_contexts) s in
  observe.accounted (error_of (result_of answer)) (events_of answer).
Proof.
  cbv zeta. rewrite register_run. cbv zeta.
  destruct (h (get_context_by_type_and_name _ _) s) as [[[found |] | e1] s1];
    [unfold result_of, events_of; cbn [fst snd error_of]; account |
     | unfold result_of, events_of; cbn [fst snd error_of]; account].
  destruct (h (register_type_if_not_exist _) s1) as [[context_type | e1] s2];
    [| unfold result_of, events_of; cbn [fst snd error_of]; account].
  destruct (fill_properties _ _ _) as [built | e1];
    [| unfold result_of, events_of; cbn [fst snd error_of]; account].
  destruct (h (put_contexts built) s2) as [[assigned | e1] s3].
  - apply after_linking_accounted. intros raised l Hl. cbn [app]. account.
  - destruct e1;
      try (unfold result_of, events_of; cbn [fst snd error_of app]; account).
    destruct (h (get_context_by_type_and_name _ _) s3) as [[[found |] | e1] s4];
      [| unfold result_of, events_of; cbn [fst snd error_of app]; account
       | unfold result_of, events_of; cbn [fst snd error_of app]; account].
    apply after_linking_accounted. intros raised l Hl. cbn [app]. account.
Qed.

(** What a failed registration raises. *)
Lemma register_failure_cases (context_spec : ContextSpec.t)
    (parent_contexts : option (list Context.t)) (s : St) (e : exn) :
  let answer := exec h (_register_context_if_not_exist context_spec parent_contexts) s in
  result_of answer = Err e ->
  observe.last_failure (events_of answer) = Some e
  \/ (exists registered,
        observe.registered_type (events_of answer) = Some registered
        /\ observe.mismatch registered context_spec e)
  \/ e = AssertionError (ContextSpec.name context_spec).
Proof.
  cbv zeta. rewrite register_run. cbv zeta.
  destruct (h (get_context_by_type_and_name _ _) s) as [[[found |] | e1] s1];
    [discriminate | | intros [= <-]; left; reflexivity].
  destruct (h (register_type_if_not_exist _) s1) as [[context_type | e1] s2];
    [| intros [= <-]; left; reflexivity].
  destruct (fill_properties _ _ _) as [built | e1] eqn:Hfill.
  2: { intros [= <-]. right. left. exists context_type. split; [reflexivity |].
       apply fill_properties_err in Hfill as (k & v & d & Hin & Hs & Hne & ->).
       exists k, v, d. split; [| auto].
       apply elem_of_map_to_list. exact Hin. }
  destruct (h (put_contexts built) s2) as [[assigned | e1] s3].
  - unfold after_linking.
    pose proof (link_parents_shape h parent_contexts (Context.set_id built assigned) s3)
      as (_ & _ & Hfail).
    destruct (exec h (link_parents _ _) s3) as [[[[] | e1] s5] tr5]; [discriminate |].
    intros [= <-]. left. unfold events_of. cbn [snd].
    specialize (Hfail _ eq_refl). unfold events_of in Hfail. cbn [snd] in Hfail.
    rewrite last_failure_app; [exact Hfail |].
    intros ->. discriminate.
  - destruct e1; try (intros [= <-]; left; reflexivity).
    destruct (h (get_context_by_type_and_name _ _) s3) as [[[found |] | e1] s4].
    + unfold after_linking.
      pose proof (link_parents_shape h parent_contexts found s4) as (_ & _ & Hfail).
      destruct (exec h (link_parents _ _) s4) as [[[[] | e1] s5] tr5]; [discriminate |].
      intros [= <-]. left. unfold events_of. cbn [snd].
      specialize (Hfail _ eq_refl). unfold events_of in Hfail. cbn [snd] in Hfail.
      rewrite last_failure_app; [exact Hfail |].
      intros ->. discriminate.
    + intros [= <-]. right. right. reflexivity.
    + intros [= <-]. left. reflexivity.
Qed.

(** X1 -- a registration that returns after its insert succeeded returns the
    context it inserted, with the id the store assigned and the name of the
    spec, and has made one edge insert per parent, in order, with that id as
    child. *)
Theorem register_insert_success (context_spec : ContextSpec.t)
    (parent_contexts : option (list Context.t)) (s s' : St) (context : Context.t)
    (tr : list (event resp)) (context_id : Z) :
  exec h (_register_context_if_not_exist context_spec parent_contexts) s
    = (Ok context, s', tr) ->
  observe.inserted_id tr = Some context_id ->
  Context.id context = context_id
  /\ Context.name context = ContextSpec.name context_spec
  /\ In (put_contexts (Context.set_id context 0)) (map ev_op tr)
  /\ List.filter is_put_parent_contexts (map ev_op tr) =
       map (fun parent_context =>
              put_parent_contexts
                (ParentContext.mk (Context.id parent_context) context_id))
           (default [] parent_contexts).
Proof.
  rewrite register_run. cbv zeta.
  destruct (h (get_context_by_type_and_name _ _) s) as [[[found |] | e] s1];
    [intros [= <- <- <-]; discriminate | | discriminate].
  destruct (h (register_type_if_not_exist _) s1) as [[context_type | e] s2];
    [| discriminate].
  destruct (fill_properties _ _ _) as [built | e] eqn:Hfill; [| discriminate].
  apply fill_properties_header in Hfill as (Hid & _ & Hname). cbn in Hid, Hname.
  destruct (h (put_contexts built) s2) as [[assigned | e] s3].
  - unfold after_linking.
    pose proof (link_parents_shape h parent_contexts (Context.set_id built assigned) s3)
      as (Hshape & _ & _).
    destruct (exec h (link_parents _ _) s3) as [[[[] | e] s5] tr5] eqn:Hlink;
      [| discriminate].
    intros [= <- <- <-]. cbn. intros [= <-]. repeat split.
    + exact Hname.
    + right. right. left. f_equal. destruct built. cbn in *. subst. reflexivity.
    + exact (link_parents_edges h parent_contexts (Context.set_id built assigned)
               s3 s5 tr5 Hlink).
  - destruct e; try discriminate.
    destruct (h (get_context_by_type_and_name _ _) s3) as [[[found |] | e] s4];
      [| discriminate | discriminate].
    unfold after_linking.
    pose proof (link_parents_shape h parent_contexts found s4) as (Hshape & _ & _).
    destruct (exec h (link_parents _ _) s4) as [[[[] | e] s5] tr5]; [| discriminate].
    intros [= <- <- <-]. cbn.
    unfold calls_of, events_of in Hshape. cbn in Hshape.
    rewrite (inserted_id_none_of_shape _ Hshape). discriminate.
Qed.

(** X2 -- failures of the calls of a registration, for any store.  Every call
    but the last either succeeded or answered AlreadyExists to the context
    insert or to an edge insert, the two failures the registrar catches; a
    failure of the last call is what the registration raises, unchanged.
    Conversely a registration that fails raises the failure of its last call,
    or the builder's error for a declared property whose kind differs from the
    kind that the type answered by the type registrar declares for its key, or
    the assertion error for the context that the re-read did not find. *)
Theorem register_failure_is_last_call (context_spec : ContextSpec.t)
    (parent_contexts : option (list Context.t)) (s : St) :
  let answer := exec h (_register_context_if_not_exist context_spec parent_contexts) s in
  forallb (fun e => observe.succeeded e || observe.masked e)
    (removelast (events_of answer)) = true
  /\ (forall x,
        observe.last_failure (events_of answer) = Some x -> result_of answer = Err x)
  /\ (forall e,
        result_of answer = Err e ->
        observe.last_failure (events_of answer) = Some e
        \/ (exists registered,
              observe.registered_type (events_of answer) = Some registered
              /\ observe.mismatch registered context_spec e)
        \/ e = AssertionError (ContextSpec.name context_spec)).
Proof.
  cbv zeta.
  destruct (register_accounted context_spec parent_contexts s) as [Hbefore Hlast].
  split; [exact Hbefore | split].
  - intros x Hx. apply Hlast in Hx.
    destruct (result_of _) as [context | e]; cbn in Hx; congruence.
  - apply register_failure_cases.
Qed.

(** X3 -- whatever the store answers, one registration makes at most two
    lookups, one type registration, one context insert and one edge insert per
    parent: nothing is retried. *)
Theorem register_call_bounds (context_spec : ContextSpec.t)
    (parent_contexts : option (list Context.t)) (s : St) :
  let calls :=
    calls_of (exec h (_register_context_if_not_exist context_spec parent_contexts) s) in
  (observe.count observe.is_lookup calls <= 2)%nat
  /\ (observe.count observe.is_register_type calls <= 1)%nat
  /\ (observe.count observe.is_put_contexts calls <= 1)%nat
  /\ (observe.count is_put_parent_contexts calls <= length (default [] parent_contexts))%nat.
Proof.
  cbv zeta. rewrite register_run. cbv zeta.
  assert (forall context before s0,
            (observe.count observe.is_lookup (map ev_op before) <= 2)%nat ->
            (observe.count observe.is_register_type (map ev_op before) <= 1)%nat ->
            (observe.count observe.is_put_contexts (map ev_op before) <= 1)%nat ->
            observe.count is_put_parent_contexts (map ev_op before) = 0%nat ->
            let calls := calls_of (after_linking h parent_contexts context before s0) in
            (observe.count observe.is_lookup calls <= 2)%nat
            /\ (observe.count observe.is_register_type calls <= 1)%nat
            /\ (observe.count observe.is_put_contexts calls <= 1)%nat
            /\ (observe.count is_put_parent_contexts calls
                <= length (default [] parent_contexts))%nat) as Hlinked.
  { intros context before s0 Hl Hr Hp He. cbv zeta. unfold after_linking.
    pose proof (link_parents_shape h parent_contexts context s0) as (Hshape & Hcount & _).
    destruct (exec h (link_parents _ _) s0) as [[r s5] tr5].
    unfold calls_of, events_of, observe.count in *. cbn [snd] in *.
    rewrite map_app, !List.filter_app, !length_app.
    rewrite (filter_none_of_shape observe.is_lookup _ ltac:(intros []; cbn; congruence) Hshape).
    rewrite (filter_none_of_shape observe.is_register_type _
               ltac:(intros []; cbn; congruence) Hshape).
    rewrite (filter_none_of_shape observe.is_put_contexts _
               ltac:(intros []; cbn; congruence) Hshape).
    cbn [length]. lia. }
  destruct (h (get_context_by_type_and_name _ _) s) as [[[found |] | e1] s1];
    [cbn; lia | | cbn; lia].
  destruct (h (register_type_if_not_exist _) s1) as [[context_type | e1] s2];
    [| cbn; lia].
  destruct (fill_properties _ _ _) as [built | e1]; [| cbn; lia].
  destruct (h (put_contexts built) s2) as [[assigned | e1] s3].
  - apply Hlinked; cbn; lia.
  - destruct e1; try (cbn; lia).
    destruct (h (get_context_by_type_and_name _ _) s3) as [[[found |] | e1] s4];
      [| cbn; lia | cbn; lia].
    apply Hlinked; cbn; lia.
Qed.

End RegistrarOutcomes.

(** ** The store grows, lookups are stable *)

Lemma extends_refl (s : MemStore.t) : extends s s.
Proof. repeat split; exists []; rewrite app_nil_r; reflexivity. Qed.

Lemma extends_trans (s1 s2 s3 : MemStore.t) : extends s1 s2 -> extends s2 s3 -> extends s1 s3.
Proof.
  intros ([t1 Ht1] & [c1 Hc1] & [e1 He1]) ([t2 Ht2] & [c2 Hc2] & [e2 He2]).
  repeat split.
  - exists (t1 ++ t2). rewrite Ht2, Ht1, app_assoc. reflexivity.
  - exists (c1 ++ c2). rewrite Hc2, Hc1, app_assoc. reflexivity.
  - exists (e1 ++ e2). rewrite He2, He1, app_assoc. reflexivity.
Qed.

Lemma find_app_found {A} (f : A -> bool) (l l' : list A) (y : A) :
  List.find f l = Some y -> List.find f (l ++ l') = Some y.
Proof.
  induction l as [| a l IH]; cbn; [discriminate |].
  destruct (f a); auto.
Qed.

Lemma handle_extends (o : op) (s s' : MemStore.t) (r : outcome (resp o)) :
  MemStore.handle o s = (r, s') -> extends s s'.
Proof.
  destruct o; cbn [MemStore.handle].
  - intros [= _ <-]. apply extends_refl.
  - unfold MemStore.insert_context. destruct (existsb _ _); intros [= _ <-].
    + apply extends_refl.
    + split; [| split]; cbn; [exists []; apply eq_sym, app_nil_r | eexists; reflexivity | exists []; apply eq_sym, app_nil_r].
  - unfold MemStore.insert_edge. destruct (bool_decide _); intros [= _ <-].
    + apply extends_refl.
    + split; [| split]; cbn; [exists []; apply eq_sym, app_nil_r | exists []; apply eq_sym, app_nil_r | eexists; reflexivity].
  - unfold MemStore.ensure_type. destruct (MemStore.type_by_name _ _); intros [= _ <-].
    + apply extends_refl.
    + split; [| split]; cbn; [eexists; reflexivity | exists []; apply eq_sym, app_nil_r | exists []; apply eq_sym, app_nil_r].
  - intros [= _ <-]. apply extends_refl.
Qed.

Lemma interfere_extends (others : list op) (s : MemStore.t) :
  extends s (RacyStore.interfere s others).
Proof.
  revert s. induction others as [| o others IH]; intros s; cbn.
  - apply extends_refl.
  - eapply extends_trans; [| apply IH].
    destruct (MemStore.handle o s) as [r s1] eqn:Hh. cbn.
    eapply handle_extends. exact Hh.
Qed.

Lemma type_by_name_extends (s s' : MemStore.t) (n : string) (ty : ContextType.t) :
  extends s s' ->
  MemStore.type_by_name s n = Some ty -> MemStore.type_by_name s' n = Some ty.
Proof.
  intros ([ts Hts] & _ & _). unfold MemStore.type_by_name. rewrite Hts.
  apply find_app_found.
Qed.

(** Whatever is found in the store stays found, with the same answer. *)
Lemma lookup_extends (s s' : MemStore.t) (type_name context_name : string) (c : Context.t) :
  extends s s' ->
  MemStore.lookup s type_name context_name = Some c ->
  MemStore.lookup s' type_name context_name = Some c.
Proof.
  intros Hext. unfold MemStore.lookup.
  destruct (MemStore.type_by_name s type_name) as [ty |] eqn:Hty; [| discriminate].
  rewrite (type_by_name_extends _ _ _ _ Hext Hty).
  destruct Hext as (_ & [cs Hcs] & _). rewrite Hcs. apply find_app_found.
Qed.

Lemma edge_extends (s s' : MemStore.t) (e : ParentContext.t) :
  extends s s' -> e ∈ MemStore.parent_contexts s -> e ∈ MemStore.parent_contexts s'.
Proof. intros (_ & _ & [es Hes]) Hin. rewrite Hes. set_solver. Qed.

(** One call on the shared store: the answer is the in-memory store's, and the
    store that is left extends the one the call left. *)
Lemma racy_handle (o : op) (s s' : MemStore.t) (schedule schedule' : list (list op))
    (r : outcome (resp o)) :
  with_telemetry RacyStore.handle o (s, schedule) = (r, (s', schedule')) ->
  exists s1, with_telemetry MemStore.handle o s = (r, s1) /\ extends s1 s'.
Proof.
  destruct o; cbn [with_telemetry RacyStore.handle];
    try (destruct (MemStore.handle _ s) as [r1 s1];
         destruct schedule as [| others schedule];
         intros [= <- <- <-]; exists s1;
         (split; [reflexivity | first [apply extends_refl | apply interfere_extends]])).
  intros [= <- <- <-]. exists s. split; [reflexivity | apply extends_refl].
Qed.

Lemma mem_handle_extends (o : op) (s s' : MemStore.t) (r : outcome (resp o)) :
  with_telemetry MemStore.handle o s = (r, s') -> extends s s'.
Proof.
  destruct o; cbn [with_telemetry]; first [apply handle_extends | idtac].
  all: intros [= _ <-]; apply extends_refl.
Qed.

(** Any program run on the shared store leaves a store that extends the one it
    started from. *)
Lemma racy_run_extends {A} (p : prog resp A) (s s' : MemStore.t)
    (schedule schedule' : list (list op)) (r : outcome A) (tr : list (event resp)) :
  exec RacyStore.handle p (s, schedule) = (r, (s', schedule'), tr) -> extends s s'.
Proof.
  revert s s' schedule schedule' r tr.
  induction p as [a | e | o k IH]; intros s s' schedule schedule' r tr; cbn [run].
  - intros [= _ <- _]. apply extends_refl.
  - intros [= _ <- _]. apply extends_refl.
  - destruct (with_telemetry RacyStore.handle o (s, schedule)) as [r1 [s1 schedule1]] eqn:Hh.
    destruct (exec RacyStore.handle (k r1) (s1, schedule1))
      as [[r2 [s2 schedule2]] tr2] eqn:Hk.
    intros [= _ <- <- _].
    apply racy_handle in Hh as (m & Hm & Hext).
    eapply extends_trans; [eapply mem_handle_extends; exact Hm |].
    eapply extends_trans; [exact Hext |]. eapply IH. exact Hk.
Qed.

(** Without other writers the shared store is the in-memory store. *)
Lemma racy_quiet {A} (p : prog resp A) (s : MemStore.t) :
  exec RacyStore.handle p (s, []) =
    let '(r, s', tr) := exec MemStore.handle p s in (r, (s', []), tr).
Proof.
  revert s. induction p as [a | e | o k IH]; intros s; cbn [run]; try reflexivity.
  assert (with_telemetry RacyStore.handle o (s, []) =
          let '(r, s1) := with_telemetry MemStore.handle o s in (r, (s1, []))) as Hh.
  { destruct o; cbn [with_telemetry RacyStore.handle]; try reflexivity;
      destruct (MemStore.handle _ s); reflexivity. }
  rewrite Hh. destruct (with_telemetry MemStore.handle o s) as [r s1].
  rewrite IH. destruct (exec MemStore.handle (k r) s1) as [[r2 s2] tr2]. reflexivity.
Qed.

(** ** The registrar on the shared in-memory store *)

Lemma insert_edge_cases (s m : MemStore.t) (e : ParentContext.t) (r : outcome unit) :
  MemStore.insert_edge s e = (r, m) ->
  (r = Ok tt \/ r = Err AlreadyExistsError) /\ e ∈ MemStore.parent_contexts m.
Proof.
  unfold MemStore.insert_edge. destruct (bool_decide _) eqn:Hin; intros [= <- <-].
  - split; [right; reflexivity |]. apply bool_decide_eq_true_1 in Hin. exact Hin.
  - split; [left; reflexivity |]. cbn. set_solver.
Qed.

(** On the shared store the loop over the parents always completes, and every
    edge it was asked for is in the store afterwards. *)
Lemma link_loop_racy (parents : list Context.t) (child : Z) (s : MemStore.t)
    (schedule : list (list op)) :
  exists s' schedule' tr,
    exec RacyStore.handle
      (for_each parents
         (fun parent_context =>
            put_parent_context_if_not_exists (Context.id parent_context) child))
      (s, schedule) = (Ok tt, (s', schedule'), tr)
    /\ forall p, p ∈ parents ->
         ParentContext.mk (Context.id p) child ∈ MemStore.parent_contexts s'.
Proof.
  revert s schedule. induction parents as [| p ps IH]; intros s schedule; cbn [for_each].
  - exists s, schedule, []. split; [reflexivity |]. intros p Hp. inversion Hp.
  - rewrite run_bind, put_parent_run. cbv zeta.
    destruct (RacyStore.handle (put_parent_contexts _) (s, schedule))
      as [r [s1 schedule1]] eqn:Hedge.
    apply (racy_handle (put_parent_contexts _)) in Hedge as (m & Hm & Hext).
    cbn [with_telemetry MemStore.handle] in Hm.
    apply insert_edge_cases in Hm as (Hr & Hin).
    destruct (IH s1 schedule1) as (s' & schedule' & tr & Hrun & Hedges).
    assert (extends s1 s') as Hext' by (eapply racy_run_extends; exact Hrun).
    assert (forall q, q ∈ p :: ps ->
              ParentContext.mk (Context.id q) child ∈ MemStore.parent_contexts s')
      as Hall.
    { intros q Hq. apply elem_of_cons in Hq as [-> | Hq]; [| auto].
      eapply edge_extends; [exact Hext' |]. eapply edge_extends; eauto. }
    destruct Hr as [-> | ->]; rewrite Hrun; eauto.
Qed.

Lemma link_parents_racy parent_contexts (context : Context.t) (s : MemStore.t)
    (schedule : list (list op)) :
  exists s' schedule' tr,
    exec RacyStore.handle (link_parents parent_contexts context) (s, schedule)
      = (Ok tt, (s', schedule'), tr)
    /\ forall p, p ∈ default [] parent_contexts ->
         ParentContext.mk (Context.id p) (Context.id context)
           ∈ MemStore.parent_contexts s'.
Proof.
  unfold link_parents. destruct parent_contexts as [[| p ps] |]; cbn [truthy default].
  - exists s, schedule, []. split; [reflexivity |]. intros p Hp. inversion Hp.
  - apply link_loop_racy.
  - exists s, schedule, []. split; [reflexivity |]. intros p Hp. inversion Hp.
Qed.

Lemma insert_context_cases (s m : MemStore.t) (c : Context.t) (r : outcome Z) :
  MemStore.insert_context s c = (r, m) ->
  (exists context_id, r = Ok context_id)
  \/ (r = Err AlreadyExistsError /\ m = s
      /\ existsb (MemStore.same_key (Context.type_id c) (Context.name c))
           (MemStore.contexts s) = true).
Proof.
  unfold MemStore.insert_context. destruct (existsb _ _) eqn:Hin; intros [= <- <-]; eauto.
Qed.

Lemma existsb_find {A} (f : A -> bool) (l : list A) :
  existsb f l = true -> exists x, List.find f l = Some x.
Proof.
  induction l as [| a l IH]; cbn; [discriminate |].
  destruct (f a); [eauto | exact IH].
Qed.

(** What a registration leaves behind on the shared store, whatever the other
    writers do in between: on success the returned context is what a lookup
    finds, and unless the first lookup had found it, every parent edge is
    present; the only failure is the builder's. *)
Lemma register_racy_post (context_spec : ContextSpec.t)
    (parent_contexts : option (list Context.t)) (s s' : MemStore.t)
    (schedule schedule' : list (list op)) (r : outcome Context.t)
    (tr : list (event resp)) :
  exec RacyStore.handle (_register_context_if_not_exist context_spec parent_contexts)
    (s, schedule) = (r, (s', schedule'), tr) ->
  match r with
  | Ok context =>
      MemStore.lookup s' (ContextType.name (ContextSpec.type context_spec))
        (ContextSpec.name context_spec) = Some context
      /\ (MemStore.lookup s (ContextType.name (ContextSpec.type context_spec))
            (ContextSpec.name context_spec) = None ->
          forall p, p ∈ default [] parent_contexts ->
            ParentContext.mk (Context.id p) (Context.id context)
              ∈ MemStore.parent_contexts s')
  | Err e =>
      exists context_type,
        fill_properties context_type
          (map_to_list (ContextSpec.properties context_spec))
          (Context.mk 0 (ContextType.id context_type)
             (ContextSpec.name context_spec) ∅ ∅) = Err e
  end.
Proof.
  rewrite register_run. cbv zeta.
  set (type_name := ContextType.name (ContextSpec.type context_spec)).
  set (context_name := ContextSpec.name context_spec).
  destruct (RacyStore.handle (get_context_by_type_and_name _ _) (s, schedule))
    as [r1 [s1 schedule1]] eqn:Hlookup.
  apply (racy_handle (get_context_by_type_and_name _ _)) in Hlookup as (m1 & Hm1 & Hext1).
  cbn [with_telemetry MemStore.handle] in Hm1. injection Hm1 as <- <-.
  destruct (MemStore.lookup s type_name context_name) as [found |] eqn:Hfound.
  { intros [= <- <- <- <-]. split; [| discriminate].
    eapply lookup_extends; eauto. }
  destruct (RacyStore.handle (register_type_if_not_exist _) (s1, schedule1))
    as [r2 [s2 schedule2]] eqn:Hensure.
  apply (racy_handle (register_type_if_not_exist _)) in Hensure as (m2 & Hm2 & Hext2).
  cbn [with_telemetry MemStore.handle] in Hm2.
  destruct r2 as [context_type | e];
    [| unfold MemStore.ensure_type in Hm2;
       destruct (MemStore.type_by_name _ _); discriminate].
  apply ensure_type_registered in Hm2 as [Htype _].
  fold type_name in Htype.
  pose proof (type_by_name_extends _ _ _ _ Hext2 Htype) as Htype2.
  destruct (fill_properties _ _ _) as [built | e] eqn:Hfill.
  2: { intros [= <- <- <- <-]. eauto. }
  apply fill_properties_header in Hfill as (_ & Htid & Hname). cbn in Htid, Hname.
  destruct (RacyStore.handle (put_contexts built) (s2, schedule2))
    as [r3 [s3 schedule3]] eqn:Hinsert.
  apply (racy_handle (put_contexts built)) in Hinsert as (m3 & Hm3 & Hext3).
  cbn [with_telemetry MemStore.handle] in Hm3.
  destruct (insert_context_cases _ _ _ _ Hm3) as [[context_id ->] | (-> & -> & Hheld)].
  - pose proof (insert_context_then_lookup _ _ _ type_name _ _ Htype2 Htid Hm3) as Hnew.
    rewrite Hname in Hnew.
    unfold after_linking.
    destruct (link_parents_racy parent_contexts (Context.set_id built context_id)
                s3 schedule3) as (s5 & schedule5 & tr5 & Hlink & Hedges).
    rewrite Hlink. intros [= <- <- <- <-]. split; [| intros _; exact Hedges].
    eapply lookup_extends; [eapply racy_run_extends; exact Hlink |].
    eapply lookup_extends; eauto.
  - destruct (RacyStore.handle (get_context_by_type_and_name _ _) (s3, schedule3))
      as [r4 [s4 schedule4]] eqn:Hreread.
    apply (racy_handle (get_context_by_type_and_name _ _)) in Hreread
      as (m4 & Hm4 & Hext4).
    cbn [with_telemetry MemStore.handle] in Hm4. injection Hm4 as <- <-.
    assert (exists found, MemStore.lookup s3 type_name context_name = Some found)
      as [found Hreread].
    { apply existsb_find in Hheld as [found Hheld].
      exists found. eapply lookup_extends; [exact Hext3 |].
      unfold MemStore.lookup. rewrite Htype2, <- Htid, <- Hname. exact Hheld. }
    rewrite Hreread. unfold after_linking.
    destruct (link_parents_racy parent_contexts found s4 schedule4)
      as (s5 & schedule5 & tr5 & Hlink & Hedges).
    rewrite Hlink. intros [= <- <- <- <-]. split; [| intros _; exact Hedges].
    eapply lookup_extends; [eapply racy_run_extends; exact Hlink |].
    eapply lookup_extends; eauto.
Qed.

(** A registration that fails on the shared store: the run registered its
    type, the store holds that type under the spec's type name, and the error
    is the builder's, for a property the spec declares with another kind than
    that type does. *)
Lemma register_racy_failure (context_spec : ContextSpec.t)
    (parent_contexts : option (list Context.t)) (s s' : MemStore.t)
    (schedule schedule' : list (list op)) (e : exn) (tr : list (event resp)) :
  exec RacyStore.handle (_register_context_if_not_exist context_spec parent_contexts)
    (s, schedule) = (Err e, (s', schedule'), tr) ->
  exists registered,
    observe.registered_type tr = Some registered
    /\ MemStore.type_by_name s' (ContextType.name (ContextSpec.type context_spec))
       = Some registered
    /\ observe.mismatch registered context_spec e.
Proof.
  rewrite register_run. cbv zeta.
  set (type_name := ContextType.name (ContextSpec.type context_spec)).
  set (context_name := ContextSpec.name context_spec).
  destruct (RacyStore.handle (get_context_by_type_and_name _ _) (s, schedule))
    as [r1 [s1 schedule1]] eqn:Hlookup.
  apply (racy_handle (get_context_by_type_and_name _ _)) in Hlookup as (m1 & Hm1 & Hext1).
  cbn [with_telemetry MemStore.handle] in Hm1. injection Hm1 as <- <-.
  destruct (MemStore.lookup s type_name context_name) as [found |] eqn:Hfound;
    [discriminate |].
  destruct (RacyStore.handle (register_type_if_not_exist _) (s1, schedule1))
    as [r2 [s2 schedule2]] eqn:Hensure.
  apply (racy_handle (register_type_if_not_exist _)) in Hensure as (m2 & Hm2 & Hext2).
  cbn [with_telemetry MemStore.handle] in Hm2.
  destruct r2 as [context_type | e2];
    [| unfold MemStore.ensure_type in Hm2;
       destruct (MemStore.type_by_name _ _); discriminate].
  apply ensure_type_registered in Hm2 as [Htype _].
  fold type_name in Htype.
  pose proof (type_by_name_extends _ _ _ _ Hext2 Htype) as Htype2.
  destruct (fill_properties _ _ _) as [built | e2] eqn:Hfill.
  2: { intros [= <- <- <- <-]. exists context_type.
       split; [reflexivity | split; [exact Htype2 |]].
       apply fill_properties_err in Hfill as (k & v & d & Hin & Hdecl & Hne & ->).
       exists k, v, d. split; [| auto].
       apply elem_of_map_to_list. exact Hin. }
  apply fill_properties_header in Hfill as (_ & Htid & Hname). cbn in Htid, Hname.
  destruct (RacyStore.handle (put_contexts built) (s2, schedule2))
    as [r3 [s3 schedule3]] eqn:Hinsert.
  apply (racy_handle (put_contexts built)) in Hinsert as (m3 & Hm3 & Hext3).
  cbn [with_telemetry MemStore.handle] in Hm3.
  destruct (insert_context_cases _ _ _ _ Hm3) as [[context_id ->] | (-> & -> & Hheld)].
  - unfold after_linking.
    destruct (link_parents_racy parent_contexts (Context.set_id built context_id)
                s3 schedule3) as (s5 & schedule5 & tr5 & Hlink & _).
    rewrite Hlink. discriminate.
  - destruct (RacyStore.handle (get_context_by_type_and_name _ _) (s3, schedule3))
      as [r4 [s4 schedule4]] eqn:Hreread.
    apply (racy_handle (get_context_by_type_and_name _ _)) in Hreread
      as (m4 & Hm4 & Hext4).
    cbn [with_telemetry MemStore.handle] in Hm4. injection Hm4 as <- <-.
    assert (exists found, MemStore.lookup s3 type_name context_name = Some found)
      as [found Hreread].
    { apply existsb_find in Hheld as [found Hheld].
      exists found. eapply lookup_extends; [exact Hext3 |].
      unfold MemStore.lookup. rewrite Htype2, <- Htid, <- Hname. exact Hheld. }
    rewrite Hreread. unfold after_linking.
    destruct (link_parents_racy parent_contexts found s4 schedule4)
      as (s5 & schedule5 & tr5 & Hlink & _).
    rewrite Hlink. discriminate.
Qed.

(** What a lookup finds carries the name it was looked up by. *)
Lemma lookup_found_name (s : MemStore.t) (type_name context_name : string)
    (context : Context.t) :
  MemStore.lookup s type_name context_name = Some context ->
  Context.name context = context_name.
Proof.
  unfold MemStore.lookup. destruct (MemStore.type_by_name s type_name); [| discriminate].
  intros Hfind. apply find_some in Hfind as [_ Hkey].
  unfold MemStore.same_key in Hkey. apply andb_prop in Hkey as [_ Hname].
  apply bool_decide_eq_true_1 in Hname. exact Hname.
Qed.

(** X4 -- on the store of section 6 shared with other writers, whatever they
    insert and whenever, a registration fails only on a schema mismatch: the
    run has registered its type, the store holds the type the registrar
    answered under the spec's type name, and the error raised is the
    builder's, for a key that this registered type declares with one kind and
    the spec gives a value of another kind.  The insert's AlreadyExists is
    always resolved by the re-read, which finds the context on a store that
    only grows. *)
Theorem register_shared_store_fails_only_on_mismatch (context_spec : ContextSpec.t)
    (parent_contexts : option (list Context.t)) (s : MemStore.t)
    (schedule : list (list op)) (e : exn) :
  let answer :=
    exec RacyStore.handle (_register_context_if_not_exist context_spec parent_contexts)
      (s, schedule) in
  result_of answer = Err e ->
  exists registered,
    observe.registered_type (events_of answer) = Some registered
    /\ MemStore.type_by_name (fst (state_of answer))
         (ContextType.name (ContextSpec.type context_spec)) = Some registered
    /\ observe.mismatch registered context_spec e.
Proof.
  cbv zeta.
  destruct (exec RacyStore.handle _ (s, schedule)) as [[r [s' schedule']] tr] eqn:Hrun.
  unfold result_of, state_of, events_of. cbn [fst snd]. intros ->.
  eapply register_racy_failure. exact Hrun.
Qed.

(** C4 -- on the store of section 6, registering the identical spec twice in
    sequence, from any state of the store.  Either the first call returns a
    context, which the store then holds under the spec's type name and name
    (it was found, or created when absent); the second call then returns that
    same context, hence the same
    id, found by its first lookup, and leaves the store as it was.  Or the
    first call fails, which happens only when the spec gives a property a
    value of another kind than the registered type declares; a spec without
    properties is therefore always registered.  This holds whatever the parent
    list, in particular with no parents. *)
Theorem register_twice_same_context (s : MemStore.t) (context_spec : ContextSpec.t)
    (parent_contexts : option (list Context.t)) :
  let type_name := ContextType.name (ContextSpec.type context_spec) in
  let context_name := ContextSpec.name context_spec in
  let register := _register_context_if_not_exist context_spec parent_contexts in
  let first := exec MemStore.handle register s in
  let second := exec MemStore.handle register (state_of first) in
  match result_of first with
  | Ok context =>
      MemStore.lookup (state_of first) type_name context_name = Some context
      /\ Context.name context = context_name
      /\ second = (Ok context, state_of first,
                   [Ev (get_context_by_type_and_name type_name context_name)
                       (Ok (Some context))])
      /\ match result_of second with
         | Ok again => Context.id again = Context.id context
         | Err _ => False
         end
  | Err e =>
      exists registered,
        MemStore.type_by_name (state_of first) type_name = Some registered
        /\ observe.mismatch registered context_spec e
  end
  /\ (ContextSpec.properties context_spec = ∅ -> is_Ok (result_of first) = true).
Proof.
  cbv zeta.
  pose proof (racy_quiet (_register_context_if_not_exist context_spec parent_contexts) s)
    as Hquiet.
  destruct (exec MemStore.handle _ s) as [[r s1] tr] eqn:Hfirst.
  unfold result_of, state_of. cbn [fst snd].
  destruct r as [context | e].
  - split; [| reflexivity].
    apply register_racy_post in Hquiet as [Hheld _].
    assert (exec MemStore.handle
              (_register_context_if_not_exist context_spec parent_contexts) s1
            = (Ok context, s1,
               [Ev (get_context_by_type_and_name
                      (ContextType.name (ContextSpec.type context_spec))
                      (ContextSpec.name context_spec)) (Ok (Some context))])) as Hsecond.
    { rewrite register_run. cbv zeta. cbn [MemStore.handle]. rewrite Hheld. reflexivity. }
    split; [exact Hheld | split; [| split; [exact Hsecond |]]].
    + eapply lookup_found_name. exact Hheld.
    + rewrite Hsecond. reflexivity.
  - apply register_racy_failure in Hquiet as (registered & _ & Htype & Hmismatch).
    split; [exists registered; split; assumption |].
    intros Hempty. destruct Hmismatch as (key & value & declared & Hspec & _).
    rewrite Hempty in Hspec. rewrite lookup_empty in Hspec. discriminate.
Qed.

(** X5 -- registrants converge: once a registration has returned a context on
    the shared store, every later registration of a spec with the same type
    name and context name returns that same context, whatever other writers
    did in between and do meanwhile, and whatever properties or parents the
    later registrant asks for. *)
Theorem register_converges (context_spec later_spec : ContextSpec.t)
    (parent_contexts later_parents : option (list Context.t)) (s s' : MemStore.t)
    (schedule schedule' later_schedule : list (list op)) (others : list op)
    (context : Context.t) (tr : list (event resp)) :
  exec RacyStore.handle (_register_context_if_not_exist context_spec parent_contexts)
    (s, schedule) = (Ok context, (s', schedule'), tr) ->
  ContextType.name (ContextSpec.type later_spec)
    = ContextType.name (ContextSpec.type context_spec) ->
  ContextSpec.name later_spec = ContextSpec.name context_spec ->
  result_of
    (exec RacyStore.handle (_register_context_if_not_exist later_spec later_parents)
       (RacyStore.interfere s' others, later_schedule)) = Ok context.
Proof.
  intros Hrun Htype Hname. apply register_racy_post in Hrun as [Hheld _].
  pose proof (lookup_extends _ _ _ _ _ (interfere_extends others s') Hheld) as Hlater.
  rewrite register_run. cbv zeta. rewrite Htype, Hname.
  destruct (RacyStore.handle (get_context_by_type_and_name _ _) _)
    as [r1 [s1 schedule1]] eqn:Hlookup.
  apply (racy_handle (get_context_by_type_and_name _ _)) in Hlookup as (m1 & Hm1 & _).
  cbn [with_telemetry MemStore.handle] in Hm1. rewrite Hlater in Hm1.
  injection Hm1 as <- <-. reflexivity.
Qed.

(** X6 -- on the shared store, a registration that did not find its context at
    the first lookup and returns a context leaves an edge from every parent to
    the returned context in the store, whether it won the insert or lost it. *)
Theorem register_links_every_parent (context_spec : ContextSpec.t)
    (parent_contexts : option (list Context.t)) (s s' : MemStore.t)
    (schedule schedule' : list (list op)) (context : Context.t)
    (tr : list (event resp)) :
  exec RacyStore.handle (_register_context_if_not_exist context_spec parent_contexts)
    (s, schedule) = (Ok context, (s', schedule'), tr) ->
  MemStore.lookup s (ContextType.name (ContextSpec.type context_spec))
    (ContextSpec.name context_spec) = None ->
  forall parent_context,
    parent_context ∈ default [] parent_contexts ->
    ParentContext.mk (Context.id parent_context) (Context.id context)
      ∈ MemStore.parent_contexts s'.
Proof.
  intros Hrun Hnew. apply register_racy_post in Hrun as [_ Hedges]. auto.
Qed.

(** X7 -- on the shared store the public wrapper always returns a context: its
    spec declares no property, so nothing can mismatch; the context it
    returns is the one a lookup by the two names finds afterwards. *)
Theorem register_wrapper_always_returns (context_type_name context_name : string)
    (parent_contexts : option (list Context.t)) (s : MemStore.t)
    (schedule : list (list op)) :
  let answer :=
    exec RacyStore.handle
      (register_context_if_not_exists context_type_name context_name parent_contexts)
      (s, schedule) in
  exists context,
    result_of answer = Ok context
    /\ MemStore.lookup (fst (state_of answer)) context_type_name context_name
       = Some context.
Proof.
  cbv zeta. unfold register_context_if_not_exists. cbv zeta. rewrite run_bind.
  destruct (exec RacyStore.handle (_register_context_if_not_exist _ _) (s, schedule))
    as [[r [s' schedule']] tr] eqn:Hrun.
  apply register_racy_post in Hrun. cbn [ContextSpec.properties ContextSpec.type
    ContextSpec.name ContextType.name] in Hrun.
  destruct r as [context | e].
  - destruct Hrun as [Hheld _]. exists context. run_step. cbn. auto.
  - destruct Hrun as [context_type Hfill]. rewrite map_to_list_empty in Hfill.
    discriminate.
Qed.

(** ** Batches *)

Lemma register_each_length {St} (h : handler resp St) (specs : list ContextSpec.t)
    (parents_for : ContextSpec.t -> option (list Context.t)) (s : St)
    (contexts : list Context.t) :
  result_of (exec h (batch.register_each specs parents_for) s) = Ok contexts ->
  length contexts = length specs.
Proof.
  revert s contexts. induction specs as [| context_spec rest IH]; intros s contexts;
    cbn [batch.register_each].
  - intros [= <-]. reflexivity.
  - run_step.
    destruct (exec h (_register_context_if_not_exist _ _) s) as [[[c | e] s1] tr1];
      [| discriminate].
    run_step. specialize (IH s1).
    destruct (exec h (batch.register_each rest parents_for) s1) as [[[cs | e] s2] tr2];
      [| discriminate].
    cbn. intros [= <-]. cbn. f_equal. apply IH. reflexivity.
Qed.

Lemma registration_order_length (specs : list ContextSpec.t) :
  length (registration_order specs) = length specs.
Proof.
  unfold registration_order. rewrite length_app.
  induction specs as [| context_spec rest IH]; [reflexivity |].
  cbn [List.filter]. destruct (batch.is_pipeline context_spec); cbn [negb length]; lia.
Qed.

(** X8 -- whatever the store answers, a batch that returns answers exactly one
    context per spec: none is skipped, none is registered twice. *)
Theorem prepare_contexts_one_context_per_spec {St} (h : handler resp St)
    (specs : list ContextSpec.t) (s : St) (contexts : list Context.t) :
  result_of (exec h (prepare_contexts specs) s) = Ok contexts ->
  length contexts = length specs.
Proof.
  destruct (prepare_contexts_run h specs s) as (Hresult & _ & _).
  cbv zeta in Hresult. rewrite Hresult. clear Hresult.
  unfold batch.register_batch. run_step.
  destruct (exec h (batch.register_each _ (fun _ => None)) s)
    as [[[pipeline_contexts | e] s1] tr1] eqn:Hfirst; [| discriminate].
  run_step.
  destruct (exec h (batch.register_each _ (batch.pass2_parents _)) s1)
    as [[[others | e] s2] tr2] eqn:Hsecond; [| discriminate].
  cbn. intros [= <-].
  rewrite <- (registration_order_length specs). unfold registration_order.
  rewrite !length_app. f_equal.
  - eapply register_each_length. rewrite Hfirst. reflexivity.
  - eapply register_each_length. rewrite Hsecond. reflexivity.
Qed.

(** A list of registrations on the shared store: each returned context is the
    one a lookup of its spec finds in the store that is left. *)
Lemma register_each_racy_post (specs : list ContextSpec.t)
    (parents_for : ContextSpec.t -> option (list Context.t)) (s s' : MemStore.t)
    (schedule schedule' : list (list op)) (contexts : list Context.t)
    (tr : list (event resp)) :
  exec RacyStore.handle (batch.register_each specs parents_for) (s, schedule)
    = (Ok contexts, (s', schedule'), tr) ->
  Forall2 (held s') specs contexts.
Proof.
  revert s schedule contexts tr.
  induction specs as [| context_spec rest IH]; intros s schedule contexts tr;
    cbn [batch.register_each].
  - intros [= <- <- <- <-]. constructor.
  - run_step.
    destruct (exec RacyStore.handle (_register_context_if_not_exist _ _) (s, schedule))
      as [[[c | e] [s1 schedule1]] tr1] eqn:Hone; [| discriminate].
    run_step.
    destruct (exec RacyStore.handle (batch.register_each rest parents_for) (s1, schedule1))
      as [[[cs | e] [s2 schedule2]] tr2] eqn:Hrest; [| discriminate].
    cbn. intros [= <- <- <- <-]. constructor.
    + apply register_racy_post in Hone as [Hheld _].
      eapply lookup_extends; [eapply racy_run_extends; exact Hrest | exact Hheld].
    + eapply IH. exact Hrest.
Qed.

Lemma held_extends (s s' : MemStore.t) (specs : list ContextSpec.t)
    (contexts : list Context.t) :
  extends s s' -> Forall2 (held s) specs contexts -> Forall2 (held s') specs contexts.
Proof.
  intros Hext Hall. induction Hall; constructor; [| assumption].
  eapply lookup_extends; eauto.
Qed.

Lemma held_name (s : MemStore.t) (context_spec : ContextSpec.t) (context : Context.t) :
  held s context_spec context -> Context.name context = ContextSpec.name context_spec.
Proof.
  unfold held, MemStore.lookup. destruct (MemStore.type_by_name _ _); [| discriminate].
  intros Hfind. apply find_some in Hfind as [_ Hkey].
  unfold MemStore.same_key in Hkey. apply andb_true_iff in Hkey as [_ Hname].
  apply bool_decide_eq_true_1 in Hname. exact Hname.
Qed.

(** The two passes on the shared store. *)
Lemma register_batch_racy_post (specs : list ContextSpec.t) (s s' : MemStore.t)
    (schedule schedule' : list (list op)) (contexts : list Context.t)
    (tr : list (event resp)) :
  exec RacyStore.handle (batch.register_batch specs) (s, schedule)
    = (Ok contexts, (s', schedule'), tr) ->
  Forall2 (held s') (registration_order specs) contexts.
Proof.
  unfold batch.register_batch, registration_order. run_step.
  destruct (exec RacyStore.handle (batch.register_each _ (fun _ => None)) (s, schedule))
    as [[[pipeline_contexts | e] [s1 schedule1]] tr1] eqn:Hfirst; [| discriminate].
  run_step.
  destruct (exec RacyStore.handle (batch.register_each _ (batch.pass2_parents _))
              (s1, schedule1))
    as [[[others | e] [s2 schedule2]] tr2] eqn:Hsecond; [| discriminate].
  cbn. intros [= <- <- <- <-]. apply Forall2_app.
  - eapply held_extends; [eapply racy_run_extends; exact Hsecond |].
    eapply register_each_racy_post. exact Hfirst.
  - eapply register_each_racy_post. exact Hsecond.
Qed.

(** X9 -- on the shared store, the contexts a batch returns are, position by
    position, the contexts of the pipeline specs followed by those of the other
    specs, each group in original order: every returned context carries the
    name of its spec and is the context a lookup of that spec finds in the
    store the batch leaves. *)
Theorem prepare_contexts_returns_held_contexts (specs : list ContextSpec.t)
    (s s' : MemStore.t) (schedule schedule' : list (list op))
    (contexts : list Context.t) (tr : list (event resp)) :
  exec RacyStore.handle (prepare_contexts specs) (s, schedule)
    = (Ok contexts, (s', schedule'), tr) ->
  Forall2 (fun context_spec context =>
             held s' context_spec context
             /\ Context.name context = ContextSpec.name context_spec)
    (registration_order specs) contexts.
Proof.
  intros Hrun.
  destruct (prepare_contexts_run RacyStore.handle specs (s, schedule))
    as (Hresult & Hstate & _).
  cbv zeta in Hresult, Hstate. rewrite Hrun in Hresult, Hstate.
  destruct (exec RacyStore.handle (batch.register_batch specs) (s, schedule))
    as [[r [s2 schedule2]] tr2] eqn:Hbatch.
  cbn in Hresult, Hstate. subst r. injection Hstate as <- <-.
  apply register_batch_racy_post in Hbatch.
  eapply Forall2_impl; [exact Hbatch |].
  intros context_spec context Hheld. split; [exact Hheld |].
  eapply held_name. exact Hheld.
Qed.

(** Registering specs whose contexts are all held already: each one is
    answered by its first lookup, whatever parents are asked for. *)
Lemma register_each_all_held (specs : list ContextSpec.t)
    (parents_for : ContextSpec.t -> option (list Context.t)) (s : MemStore.t)
    (schedule : list (list op)) (contexts : list Context.t) :
  Forall2 (held s) specs contexts ->
  exists s' schedule' tr,
    exec RacyStore.handle (batch.register_each specs parents_for) (s, schedule)
      = (Ok contexts, (s', schedule'), tr)
    /\ forallb observe.is_lookup (map ev_op tr) = true.
Proof.
  intros Hall. revert s schedule Hall parents_for.
  induction specs as [| context_spec rest IH] in contexts |- *;
    intros s schedule Hall parents_for; inversion Hall as [| ? c ? cs Hheld Hrest]; subst.
  - exists s, schedule, []. split; reflexivity.
  - cbn [batch.register_each]. rewrite run_bind, register_run. cbv zeta.
    destruct (RacyStore.handle (get_context_by_type_and_name _ _) (s, schedule))
      as [r1 [s1 schedule1]] eqn:Hlookup.
    apply (racy_handle (get_context_by_type_and_name _ _)) in Hlookup as (m1 & Hm1 & Hext).
    cbn [with_telemetry MemStore.handle] in Hm1. unfold held in Hheld.
    rewrite Hheld in Hm1. injection Hm1 as <- <-.
    destruct (IH cs s1 schedule1 (held_extends _ _ _ _ Hext Hrest) parents_for)
      as (s' & schedule' & tr & Hrun & Hlookups).
    run_step. rewrite Hrun. cbn [run]. exists s', schedule'. eexists.
    split; [reflexivity |].
    rewrite !map_app, !forallb_app, Hlookups. reflexivity.
Qed.

(** X10 -- a batch is idempotent on the shared store, whatever other writers
    insert: once it has returned, running it again returns the same contexts
    and inserts nothing, its only calls to the store being lookups. *)
Theorem prepare_contexts_again_only_looks_up (specs : list ContextSpec.t)
    (s s' : MemStore.t) (schedule schedule' later_schedule : list (list op))
    (others : list op) (contexts : list Context.t) (tr : list (event resp)) :
  exec RacyStore.handle (prepare_contexts specs) (s, schedule)
    = (Ok contexts, (s', schedule'), tr) ->
  let again :=
    exec RacyStore.handle (prepare_contexts specs)
      (RacyStore.interfere s' others, later_schedule) in
  result_of again = Ok contexts
  /\ forallb observe.is_lookup (store_calls (calls_of again)) = true.
Proof.
  intros Hrun. cbv zeta.
  assert (Forall2 (held (RacyStore.interfere s' others)) (registration_order specs) contexts)
    as Hheld.
  { eapply held_extends; [apply interfere_extends |].
    destruct (prepare_contexts_run RacyStore.handle specs (s, schedule))
      as (Hresult & Hstate & _).
    cbv zeta in Hresult, Hstate. rewrite Hrun in Hresult, Hstate.
    destruct (exec RacyStore.handle (batch.register_batch specs) (s, schedule))
      as [[r [s2 schedule2]] tr2] eqn:Hbatch.
    cbn in Hresult, Hstate. subst r. injection Hstate as <- <-.
    eapply register_batch_racy_post. exact Hbatch. }
  clear Hrun. set (later := RacyStore.interfere s' others) in *.
  destruct (prepare_contexts_run RacyStore.handle specs (later, later_schedule))
    as (Hresult & _ & Hevents).
  cbv zeta in Hresult, Hevents. unfold calls_of. rewrite Hresult, Hevents.
  clear Hresult Hevents.
  unfold registration_order in Hheld. apply Forall2_app_inv_l in Hheld
    as (pipeline_contexts & rest & Hfirst & Hsecond & ->).
  unfold batch.register_batch. run_step.
  destruct (register_each_all_held _ (fun _ => None) later later_schedule _ Hfirst)
    as (s1 & schedule1 & tr1 & Hrun1 & Hlookups1).
  rewrite Hrun1. run_step.
  assert (extends later s1) as Hext by (eapply racy_run_extends; exact Hrun1).
  destruct (register_each_all_held _ (batch.pass2_parents pipeline_contexts)
              s1 schedule1 _ (held_extends _ _ _ _ Hext Hsecond))
    as (s2 & schedule2 & tr2 & Hrun2 & Hlookups2).
  rewrite Hrun2. cbn [run result_of events_of fst snd is_Ok app].
  split; [reflexivity |].
  unfold store_calls. rewrite !map_app, !List.filter_app, !forallb_app.
  cbn. rewrite !andb_true_r.
  assert (forall calls, forallb observe.is_lookup calls = true ->
            forallb observe.is_lookup
              (List.filter (fun o => negb (is_telemetry o)) calls) = true) as Hfilter.
  { induction calls as [| o calls IH]; cbn; [reflexivity |].
    intros Hall. apply andb_true_iff in Hall as [Ho Hall].
    destruct o; try discriminate. cbn. auto. }
  rewrite (Hfilter _ Hlookups1), (Hfilter _ Hlookups2). reflexivity.
Qed.

(** ** Batches that link nothing *)

Section BatchEdges.
Context {St : Type} (h : handler resp St).

Lemma register_without_parents_no_edge (context_spec : ContextSpec.t)
    (parent_contexts : option (list Context.t)) (s : St) :
  truthy parent_contexts = false ->
  List.filter is_put_parent_contexts
    (calls_of (exec h (_register_context_if_not_exist context_spec parent_contexts) s))
  = [].
Proof.
  intros Hfalsy. rewrite register_run. cbv zeta. unfold after_linking.
  destruct (h (get_context_by_type_and_name _ _) s) as [[[found |] | e1] s1];
    [reflexivity | | reflexivity].
  destruct (h (register_type_if_not_exist _) s1) as [[context_type | e1] s2];
    [| reflexivity].
  destruct (fill_properties _ _ _) as [built | e1]; [| reflexivity].
  destruct (h (put_contexts built) s2) as [[assigned | e1] s3].
  - rewrite (link_parents_falsy h _ _ _ Hfalsy). reflexivity.
  - destruct e1; try reflexivity.
    destruct (h (get_context_by_type_and_name _ _) s3) as [[[found |] | e1] s4];
      [| reflexivity | reflexivity].
    rewrite (link_parents_falsy h _ _ _ Hfalsy). reflexivity.
Qed.

Lemma register_each_no_edge (specs : list ContextSpec.t)
    (parents_for : ContextSpec.t -> option (list Context.t)) (s : St) :
  (forall context_spec, In context_spec specs -> truthy (parents_for context_spec) = false) ->
  List.filter is_put_parent_contexts
    (calls_of (exec h (batch.register_each specs parents_for) s)) = [].
Proof.
  revert s. induction specs as [| context_spec rest IH]; intros s Hfalsy;
    cbn [batch.register_each]; [reflexivity |].
  run_step.
  pose proof (register_without_parents_no_edge context_spec (parents_for context_spec) s
                (Hfalsy _ (or_introl eq_refl))) as Hone.
  destruct (exec h (_register_context_if_not_exist _ _) s) as [[[c | e] s1] tr1];
    [| exact Hone].
  run_step. specialize (IH s1 (fun sp Hin => Hfalsy sp (or_intror Hin))).
  destruct (exec h (batch.register_each rest parents_for) s1) as [[[cs | e] s2] tr2];
    unfold calls_of, events_of in *; cbn [snd run] in *;
    rewrite ?app_nil_r, map_app, List.filter_app, Hone, IH; reflexivity.
Qed.

(** X11 -- whatever the store answers, a batch makes no edge insert at all when
    it holds no pipeline spec, or no pipeline-run spec: edges only ever run
    from a pipeline context of the batch to a pipeline-run context of the
    batch. *)
Theorem prepare_contexts_links_only_runs_to_pipelines (specs : list ContextSpec.t) (s : St) :
  forallb (fun context_spec => negb (batch.is_pipeline context_spec)) specs = true
  \/ forallb (fun context_spec => negb (batch.is_pipeline_run context_spec)) specs = true ->
  List.filter is_put_parent_contexts (calls_of (exec h (prepare_contexts specs) s)) = [].
Proof.
  intros Hnone.
  destruct (prepare_contexts_run h specs s) as (_ & _ & Hevents).
  cbv zeta in Hevents. unfold calls_of. rewrite Hevents. clear Hevents.
  rewrite map_app, List.filter_app.
  assert (List.filter is_put_parent_contexts
            (map ev_op (events_of (exec h (batch.register_batch specs) s))) = []) as ->.
  2: { destruct (is_Ok _); reflexivity. }
  unfold batch.register_batch. run_step.
  pose proof (register_each_no_edge (List.filter batch.is_pipeline specs)
                (fun _ => None) s (fun _ _ => eq_refl)) as Hfirst.
  destruct (exec h (batch.register_each _ (fun _ => None)) s)
    as [[[pipeline_contexts | e] s1] tr1] eqn:Hrun1; [| exact Hfirst].
  run_step.
  assert (forall context_spec,
            In context_spec
              (List.filter (fun context_spec => negb (batch.is_pipeline context_spec)) specs) ->
            truthy (batch.pass2_parents pipeline_contexts context_spec) = false) as Hfalsy.
  { intros context_spec Hin. apply filter_In in Hin as [Hin _].
    unfold batch.pass2_parents. destruct Hnone as [Hnone | Hnone].
    - assert (List.filter batch.is_pipeline specs = []) as Hempty.
      { clear - Hnone. induction specs as [| sp rest IH]; [reflexivity |].
        cbn in Hnone |- *. apply andb_true_iff in Hnone as [Hsp Hrest].
        apply negb_true_iff in Hsp. rewrite Hsp. auto. }
      rewrite Hempty in Hrun1. cbn in Hrun1. injection Hrun1 as <- <- <-.
      destruct (batch.is_pipeline_run context_spec); reflexivity.
    - rewrite forallb_forall in Hnone. specialize (Hnone _ Hin).
      apply negb_true_iff in Hnone. rewrite Hnone. reflexivity. }
  pose proof (register_each_no_edge _ (batch.pass2_parents pipeline_contexts) s1 Hfalsy)
    as Hsecond.
  destruct (exec h (batch.register_each _ (batch.pass2_parents _)) s1)
    as [[[others | e] s2] tr2];
    unfold calls_of, events_of in *; cbn [snd run] in *;
    rewrite ?app_nil_r, map_app, List.filter_app, Hfirst, Hsecond; reflexivity.
Qed.

End BatchEdges.

(** ** The dispatcher and the entry point *)

(** X12 -- the dispatcher masks no failure and stops at the first one: every
    call but the last was answered without error, and the dispatch raises the
    failure of its last call unchanged, or returns normally when that call
    succeeded.  In particular a failed import, deserialization, driver or
    executor is followed by no further call. *)
Theorem run_stops_at_first_failure {St}
    (h : handler python_execution_lib.resp St) (s : St)
    (MLMD_CONNECTION_CONFIG_FLAG_value : option string)
    (executable_spec : python_execution_lib.ExecutableSpec)
    (execution_info : python_execution_lib.ExecutionInfo) :
  let dispatched :=
    run h (python_execution_lib.run MLMD_CONNECTION_CONFIG_FLAG_value
             executable_spec execution_info) s in
  result_of dispatched =
    match observe.last_failure (events_of dispatched) with
    | Some e => Err e
    | None => Ok tt
    end
  /\ forallb observe.succeeded (removelast (events_of dispatched)) = true.
Proof.
  cbv zeta.
  unfold python_execution_lib.run, python_execution_lib._run_python_custom_component,
    python_execution_lib._import_class_path, python_execution_lib._run_driver, call.
  destruct executable_spec as [class_path | class_path];
    destruct (python_execution_lib.flag_set MLMD_CONNECTION_CONFIG_FLAG_value);
    cbn;
    repeat (match goal with
            | |- context [h ?o ?s0] => destruct (h o s0) as [[? | ?] ?]; cbn
            | |- context [match ?x with Some _ => _ | None => _ end] =>
                is_var x; destruct x; cbn
            end);
    repeat match goal with
           | a : python_execution_lib.resp _ |- _ => progress cbn in a
           | u : unit |- _ => destruct u
           end;
    split; reflexivity.
Qed.

Lemma dispatch_run {St A} (h : handler entrypoint.resp St)
    (p : prog python_execution_lib.resp A) (s : St) :
  run h (entrypoint.dispatch p) s =
    let '(r, s', tr) := run (entrypoint.lib_handler h) p s in
    (r, s', map entrypoint.lib_event tr).
Proof.
  revert s. induction p as [a | e | o k IH]; intros s; cbn [run entrypoint.dispatch];
    try reflexivity.
  unfold entrypoint.lib_handler at 1. destruct (h (entrypoint.lib o) s) as [r s1].
  rewrite IH. destruct (run (entrypoint.lib_handler h) (k r) s1) as [[r2 s2] tr2].
  reflexivity.
Qed.

(** X13 -- when the two flag markers pass and both deserializations succeed,
    the entry point is the dispatcher run on the deserialized spec and
    invocation: same result and final state, and its calls are those four
    followed by the dispatcher's.  The spec is decoded from the beam flag,
    with [with_beam] true, exactly when that flag is not [None]. *)
Theorem main_dispatches_what_it_deserialized {St} (h : handler entrypoint.resp St)
    (s s1 s2 s3 s4 : St) (FLAGS : entrypoint.Flags)
    (MLMD_CONNECTION_CONFIG_FLAG_value : option string)
    (executable_spec : python_execution_lib.ExecutableSpec)
    (execution_info : python_execution_lib.ExecutionInfo) :
  let with_beam :=
    match entrypoint.tfx_beam_executable_spec_b64 FLAGS with
    | Some _ => true
    | None => false
    end in
  let required := entrypoint.mark_flag_as_required "tfx_execution_info_b64" in
  let exclusive :=
    entrypoint.mark_flags_as_mutual_exclusive
      ["tfx_python_class_executable_spec_b64"; "tfx_beam_executable_spec_b64"] true in
  let decode_spec :=
    entrypoint.deserialize_executable_spec
      (if with_beam then entrypoint.tfx_beam_executable_spec_b64 FLAGS
       else entrypoint.tfx_python_class_executable_spec_b64 FLAGS) with_beam in
  let decode_info :=
    entrypoint.deserialize_execution_info (entrypoint.tfx_execution_info_b64 FLAGS) in
  h required s = (Ok tt, s1) ->
  h exclusive s1 = (Ok tt, s2) ->
  h decode_spec s2 = (Ok executable_spec, s3) ->
  h decode_info s3 = (Ok execution_info, s4) ->
  run h (entrypoint.main FLAGS MLMD_CONNECTION_CONFIG_FLAG_value) s =
    let '(r, s', tr) :=
      run (entrypoint.lib_handler h)
        (python_execution_lib.run MLMD_CONNECTION_CONFIG_FLAG_value
           executable_spec execution_info) s4 in
    (r, s',
     [Ev required (Ok tt); Ev exclusive (Ok tt); Ev decode_spec (Ok executable_spec);
      Ev decode_info (Ok execution_info)] ++ map entrypoint.lib_event tr).
Proof.
  cbv zeta. destruct FLAGS as [info_flag class_flag beam_flag].
  unfold entrypoint.main.
  cbn [entrypoint.tfx_beam_executable_spec_b64 entrypoint.tfx_execution_info_b64
       entrypoint.tfx_python_class_executable_spec_b64].
  intros Hrequired Hexclusive Hspec Hinfo.
  rewrite run_bind, run_call, Hrequired.
  rewrite run_bind, run_call, Hexclusive. rewrite run_bind.
  destruct beam_flag as [beam |];
    unfold call at 1; cbn [run]; rewrite Hspec; cbn [run];
    rewrite run_bind; unfold call at 1; cbn [run]; rewrite Hinfo; cbn [run];
    rewrite dispatch_run;
    destruct (run (entrypoint.lib_handler h) _ s4) as [[r s'] tr]; reflexivity.
Qed.

(** X14 -- whatever the runtime answers, the entry point stops at the first
    call that fails and raises that failure unchanged: every call but the last
    succeeded, so nothing is imported, run or written after a flag check or a
    deserialization failed.  The only executable-spec decoding it ever asks
    for reads the beam flag with [with_beam] true when that flag is set, even
    to the empty string, and the class-spec flag with [with_beam] false
    otherwise. *)
Theorem main_stops_at_first_failure {St} (h : handler entrypoint.resp St) (s : St)
    (FLAGS : entrypoint.Flags) (MLMD_CONNECTION_CONFIG_FLAG_value : option string) :
  let ran := run h (entrypoint.main FLAGS MLMD_CONNECTION_CONFIG_FLAG_value) s in
  result_of ran =
    match observe.last_failure (events_of ran) with
    | Some e => Err e
    | None => Ok tt
    end
  /\ forallb observe.succeeded (removelast (events_of ran)) = true
  /\ forall b64 with_beam,
       In (entrypoint.deserialize_executable_spec b64 with_beam) (calls_of ran) ->
       match entrypoint.tfx_beam_executable_spec_b64 FLAGS with
       | Some beam => with_beam = true /\ b64 = Some beam
       | None =>
           with_beam = false
           /\ b64 = entrypoint.tfx_python_class_executable_spec_b64 FLAGS
       end.
Proof.
  cbv zeta. destruct FLAGS as [info_flag class_flag beam_flag].
  unfold entrypoint.main, python_execution_lib.run,
    python_execution_lib._run_python_custom_component,
    python_execution_lib._import_class_path, python_execution_lib._run_driver, call.
  destruct beam_flag as [beam |];
    destruct (python_execution_lib.flag_set MLMD_CONNECTION_CONFIG_FLAG_value);
    cbn;
    repeat (match goal with
            | |- context [h ?o ?s0] => destruct (h o s0) as [[? | ?] ?]; cbn
            | |- context [match ?x with Some _ => _ | None => _ end] =>
                is_var x; destruct x; cbn
            | |- context [match ?x with
                          | python_execution_lib.PythonClassExecutableSpec _ => _
                          | python_execution_lib.BeamExecutableSpec _ => _
                          end] => is_var x; destruct x; cbn
            end);
    repeat match goal with
           | a : entrypoint.resp _ |- _ => progress cbn in a
           | a : python_execution_lib.resp _ |- _ => progress cbn in a
           | u : unit |- _ => destruct u
           end;
    (split; [reflexivity | split; [reflexivity |]]);
    intros b64 with_beam Hin; intuition congruence.
Qed.

(** The entry point on a runtime with fixed answers: an empty beam flag still
    selects the beam spec, while an empty connection config flag selects the
    executor; the executor's result is written to the decoded output
    location. *)
Lemma main_dispatches_what_it_deserialized_witness :
  calls_of
    (run (entrypoint.scripted (Some {| python_execution_lib.SerializeToString := "done" |}))
       (entrypoint.main
          {| entrypoint.tfx_execution_info_b64 := Some "/tmp/out";
             entrypoint.tfx_python_class_executable_spec_b64 := None;
             entrypoint.tfx_beam_executable_spec_b64 := Some "" |}
          (Some "")) tt)
  = [entrypoint.mark_flag_as_required "tfx_execution_info_b64";
     entrypoint.mark_flags_as_mutual_exclusive
       ["tfx_python_class_executable_spec_b64"; "tfx_beam_executable_spec_b64"] true;
     entrypoint.deserialize_executable_spec (Some "") true;
     entrypoint.deserialize_execution_info (Some "/tmp/out");
     entrypoint.lib (python_execution_lib.import_class_by_path "");
     entrypoint.lib
       (python_execution_lib.run_executor
          (python_execution_lib.BeamExecutableSpec "")
          {| python_execution_lib.execution_output_uri := "/tmp/out";
             python_execution_lib.invocation := "" |});
     entrypoint.lib (python_execution_lib.fileio_write "/tmp/out" "done")].
Proof.
  pose proof
    (main_dispatches_what_it_deserialized
       (entrypoint.scripted (Some {| python_execution_lib.SerializeToString := "done" |}))
       tt tt tt tt tt
       {| entrypoint.tfx_execution_info_b64 := Some "/tmp/out";
          entrypoint.tfx_python_class_executable_spec_b64 := None;
          entrypoint.tfx_beam_executable_spec_b64 := Some "" |}
       (Some "")
       (python_execution_lib.BeamExecutableSpec "")
       {| python_execution_lib.execution_output_uri := "/tmp/out";
          python_execution_lib.invocation := "" |}
       eq_refl eq_refl eq_refl eq_refl) as Hmain.
  cbv zeta in Hmain. unfold calls_of. rewrite Hmain. vm_compute. reflexivity.
Defined.

(** ** Concrete runs for the further properties *)

(** Registering r1 under p1 on a store that holds p1 only: the insert gets id
    2 and the edge (1, 2) follows. *)
Lemma register_insert_success_witness :
  let answer :=
    exec MemStore.handle
      (_register_context_if_not_exist examples.r1 (Some [examples.pipeline_context]))
      examples.store_with_pipeline in
  result_of answer = Ok examples.winner_r1
  /\ observe.inserted_id (events_of answer) = Some 2%Z
  /\ List.filter is_put_parent_contexts (calls_of answer)
     = [put_parent_contexts (ParentContext.mk 1 2)].
Proof.
  cbv zeta.
  set (answer := exec MemStore.handle _ examples.store_with_pipeline).
  assert (answer = (Ok examples.winner_r1, state_of answer, events_of answer)) as Hrun
    by (vm_compute; reflexivity).
  assert (observe.inserted_id (events_of answer) = Some 2%Z) as Hid
    by (vm_compute; reflexivity).
  split; [vm_compute; reflexivity | split; [exact Hid |]].
  exact (proj2 (proj2 (proj2
           (register_insert_success MemStore.handle examples.r1
              (Some [examples.pipeline_context]) examples.store_with_pipeline
              (state_of answer) examples.winner_r1 (events_of answer) 2%Z Hrun Hid)))).
Defined.

(** An unreachable store: the lookup fails, and that failure is what the
    registration raises, after that single call. *)
Example register_on_unavailable_store :
  exec UnavailableStore.handle (_register_context_if_not_exist examples.r1 None) tt
  = (Err (StoreError "UNAVAILABLE"), tt,
     [Ev examples.lookup_r1 (Err (StoreError "UNAVAILABLE"))]).
Proof. vm_compute. reflexivity. Qed.

(** The mistyped spec on the empty shared store: the run registers the type
    with "owner" declared a STRING, and fails on the integer given for it. *)
Lemma register_shared_store_fails_only_on_mismatch_witness :
  exists registered,
    observe.registered_type
      (events_of
         (exec RacyStore.handle
            (_register_context_if_not_exist examples.mistyped_spec None)
            (MemStore.empty, []))) = Some registered
    /\ MemStore.type_by_name
         (fst (state_of
                 (exec RacyStore.handle
                    (_register_context_if_not_exist examples.mistyped_spec None)
                    (MemStore.empty, []))))
         (ContextType.name (ContextSpec.type examples.mistyped_spec)) = Some registered
    /\ observe.mismatch registered examples.mistyped_spec
         (RuntimeError INT STRING "owner").
Proof.
  apply (register_shared_store_fails_only_on_mismatch examples.mistyped_spec None
           MemStore.empty [] (RuntimeError INT STRING "owner")).
  vm_compute. reflexivity.
Defined.

(** After the lost race on r1, a later registrant of r1 with other properties
    and parents, behind yet another writer, gets the winner's context. *)
Lemma register_converges_witness :
  result_of
    (exec RacyStore.handle
       (_register_context_if_not_exist
          (ContextSpec.mk (ContextType.mk 0 "pipeline_run" ∅) "r1"
             {[ "note" := int_value 7 ]})
          (Some [examples.pipeline_context]))
       (RacyStore.interfere
          (fst (state_of
                  (exec RacyStore.handle
                     (_register_context_if_not_exist examples.r1 None) examples.race)))
          [register_type_if_not_exist (ContextType.mk 0 "other" ∅)],
        [[put_contexts (Context.mk 0 2 "r2" ∅ ∅)]]))
  = Ok examples.winner_r1.
Proof.
  set (first := exec RacyStore.handle
                  (_register_context_if_not_exist examples.r1 None) examples.race).
  assert (first = (Ok examples.winner_r1, (fst (state_of first), snd (state_of first)),
                   events_of first)) as Hfirst
    by (vm_compute; reflexivity).
  set (later := ContextSpec.mk (ContextType.mk 0 "pipeline_run" ∅) "r1"
                  {[ "note" := int_value 7 ]}).
  assert (ContextType.name (ContextSpec.type later)
          = ContextType.name (ContextSpec.type examples.r1)) as Htype by reflexivity.
  assert (ContextSpec.name later = ContextSpec.name examples.r1) as Hname by reflexivity.
  exact (register_converges examples.r1 later
           None (Some [examples.pipeline_context])
           (fst examples.race) (fst (state_of first))
           (snd examples.race) (snd (state_of first))
           [[put_contexts (Context.mk 0 2 "r2" ∅ ∅)]]
           [register_type_if_not_exist (ContextType.mk 0 "other" ∅)]
           examples.winner_r1 (events_of first) Hfirst Htype Hname).
Defined.

Lemma register_links_every_parent_witness :
  ParentContext.mk 1 2
    ∈ MemStore.parent_contexts
        (fst (state_of
                (exec RacyStore.handle
                   (_register_context_if_not_exist examples.r1
                      (Some [examples.pipeline_context])) examples.race))).
Proof.
  set (answer := exec RacyStore.handle _ examples.race).
  assert (answer = (Ok examples.winner_r1, (fst (state_of answer), snd (state_of answer)),
                    events_of answer)) as Hrun
    by (vm_compute; reflexivity).
  apply (register_links_every_parent examples.r1 (Some [examples.pipeline_context])
           (fst examples.race) (fst (state_of answer))
           (snd examples.race) (snd (state_of answer))
           examples.winner_r1 (events_of answer) Hrun
           ltac:(vm_compute; reflexivity) examples.pipeline_context).
  cbn. apply list_elem_of_singleton. reflexivity.
Defined.

Lemma prepare_contexts_one_context_per_spec_witness :
  length [Context.mk 1 1 "p1" ∅ ∅; Context.mk 2 2 "r1" ∅ ∅; Context.mk 3 3 "o1" ∅ ∅]
  = length [examples.r1; examples.o1; examples.p1].
Proof.
  apply (prepare_contexts_one_context_per_spec MemStore.handle
           [examples.r1; examples.o1; examples.p1] MemStore.empty).
  vm_compute. reflexivity.
Defined.

Lemma prepare_contexts_returns_held_contexts_witness :
  Forall2 (fun context_spec context =>
             held (fst (state_of
                          (exec RacyStore.handle
                             (prepare_contexts [examples.r1; examples.p1])
                             (MemStore.empty, []))))
               context_spec context
             /\ Context.name context = ContextSpec.name context_spec)
    (registration_order [examples.r1; examples.p1])
    [Context.mk 1 1 "p1" ∅ ∅; Context.mk 2 2 "r1" ∅ ∅].
Proof.
  set (answer := exec RacyStore.handle _ (MemStore.empty, [])).
  assert (answer = (Ok [Context.mk 1 1 "p1" ∅ ∅; Context.mk 2 2 "r1" ∅ ∅],
                    (fst (state_of answer), snd (state_of answer)), events_of answer))
    as Hrun by (vm_compute; reflexivity).
  exact (prepare_contexts_returns_held_contexts [examples.r1; examples.p1]
           MemStore.empty (fst (state_of answer)) [] (snd (state_of answer))
           _ (events_of answer) Hrun).
Defined.

Lemma prepare_contexts_again_only_looks_up_witness :
  let first :=
    exec RacyStore.handle (prepare_contexts [examples.r1; examples.p1])
      (MemStore.empty, []) in
  let again :=
    exec RacyStore.handle (prepare_contexts [examples.r1; examples.p1])
      (RacyStore.interfere (fst (state_of first))
         [register_type_if_not_exist (ContextType.mk 0 "other" ∅)], []) in
  result_of again = Ok [Context.mk 1 1 "p1" ∅ ∅; Context.mk 2 2 "r1" ∅ ∅]
  /\ forallb observe.is_lookup (store_calls (calls_of again)) = true.
Proof.
  cbv zeta.
  set (first := exec RacyStore.handle _ (MemStore.empty, [])).
  assert (first = (Ok [Context.mk 1 1 "p1" ∅ ∅; Context.mk 2 2 "r1" ∅ ∅],
                   (fst (state_of first), snd (state_of first)), events_of first))
    as Hrun by (vm_compute; reflexivity).
  exact (prepare_contexts_again_only_looks_up [examples.r1; examples.p1]
           MemStore.empty (fst (state_of first)) [] (snd (state_of first)) []
           [register_type_if_not_exist (ContextType.mk 0 "other" ∅)]
           _ (events_of first) Hrun).
Defined.

Lemma prepare_contexts_links_only_runs_to_pipelines_witness :
  List.filter is_put_parent_contexts
    (calls_of (exec MemStore.handle (prepare_contexts [examples.r1; examples.o1])
                 MemStore.empty)) = [].
Proof.
  apply (prepare_contexts_links_only_runs_to_pipelines MemStore.handle
           [examples.r1; examples.o1] MemStore.empty).
  left. vm_compute. reflexivity.
Defined.
